(** * cdk8s-cli, [src/import/k8s.ts]: the Kubernetes schema importer

    A shallow embedding of the importer of the Kubernetes API schema: the
    matcher of import specifications ([ImportKubernetesApi.match]), the
    classifier of schema definitions ([tryGetObjectName]), the scan of the
    definition graph ([findApiObjectDefinitions]), the download step
    ([downloadSchema]) and the generation pipeline ([generateTypeScript]).

    The program is TypeScript.  Its values are modelled as parsed JSON
    together with [undefined]; a [throw] is the left injection of a sum; the
    calls the program makes to the outside (console, network, the rendering
    engine) are recorded, in order, in a trace of events. *)

From Stdlib Require Import String Ascii List ZArith QArith Lia Bool DecimalString.
From stdpp Require Import base option list strings gmap.

#[local] Set Warnings "-clear-no-such-hyp".

Local Open Scope string_scope.
Local Open Scope list_scope.

(** ** JavaScript values *)

Module Js.

#[local] Set Warnings "-register-all".

(** A value produced by [JSON.parse].  The fields of an object are listed in
    the order in which [Object.entries] enumerates them. *)
Inductive JSON : Type :=
| JNull
| JBool (b : bool)
| JNum (q : Q)
| JStr (s : string)
| JArr (items : list JSON)
| JObj (fields : list (string * JSON)).

(** A JavaScript value is a JSON value or [undefined]. *)
Abbreviation Value := (option JSON).
Abbreviation undefined := (@None JSON).

(** Error objects: [name] and [message], as [Error.prototype] has them. *)
Record JsError : Type := mkError { errName : string; errMessage : string }.

(** [new Error(msg)]. *)
Definition newError (msg : string) : JsError := mkError "Error" msg.

(** The [TypeError] of a property read on [null] or [undefined]; the text of
    its message is the engine's and is not inspected by the program. *)
Definition nullishRead (prop : string) : JsError :=
  mkError "TypeError" ("Cannot read properties of null or undefined, reading " +:+ prop).

(** [String(e)] for an error object ([Error.prototype.toString]). *)
Definition errorToString (e : JsError) : string :=
  if String.eqb (errName e) "" then errMessage e
  else if String.eqb (errMessage e) "" then errName e
  else errName e +:+ ": " +:+ errMessage e.

(** The outcome of a call: a thrown error or a returned value.  A [throw]
    skips what follows it. *)
Abbreviation Outcome := (sum JsError).

#[export] Instance outcome_ret : MRet Outcome := fun _ a => inr a.
#[export] Instance outcome_bind : MBind Outcome :=
  fun _ _ k m => match m with inl e => inl e | inr a => k a end.

Definition throw {A : Type} (e : JsError) : Outcome A := inl e.

(** [ToBoolean]. *)
Definition truthy (v : Value) : bool :=
  match v with
  | None => false
  | Some JNull => false
  | Some (JBool b) => b
  | Some (JNum q) => negb (Z.eqb (Qnum q) 0)
  | Some (JStr s) => negb (String.eqb s "")
  | Some (JArr _) => true
  | Some (JObj _) => true
  end.

(** The first field called [k]. *)
Fixpoint assoc (k : string) (fields : list (string * JSON)) : Value :=
  match fields with
  | [] => None
  | (k', v) :: rest => if String.eqb k k' then Some v else assoc k rest
  end.

(** [v.k] and [v[k]] for a property name [k].  Reading from [null] or
    [undefined] throws; an object yields its own field; the names this
    program reads are members of no prototype, so that any other value
    yields [undefined]. *)
Definition getProp (v : Value) (k : string) : Outcome Value :=
  match v with
  | None | Some JNull => inl (nullishRead k)
  | Some (JObj fields) => inr (assoc k fields)
  | Some _ => inr None
  end.

(** [v?.k]. *)
Definition getPropOpt (v : Value) (k : string) : Outcome Value :=
  match v with
  | None | Some JNull => inr None
  | _ => getProp v k
  end.

(** The decimal text of an array index. *)
Definition indexKey (i : nat) : string :=
  NilEmpty.string_of_uint (Nat.to_uint i).

(** [v[i]] for a number [i]: an element of an array, a character of a
    string, the field of an object whose name is the text of [i]. *)
Definition getIndex (v : Value) (i : nat) : Outcome Value :=
  match v with
  | None | Some JNull => inl (nullishRead (indexKey i))
  | Some (JArr items) => inr (nth_error items i)
  | Some (JStr s) => inr (match String.get i s with
                          | Some c => Some (JStr (String c EmptyString))
                          | None => None
                          end)
  | Some (JObj fields) => inr (assoc (indexKey i) fields)
  | Some _ => inr None
  end.

(** The characters of a string, as one-character strings. *)
Fixpoint chars (s : string) : list JSON :=
  match s with
  | EmptyString => []
  | String c rest => JStr (String c EmptyString) :: chars rest
  end.

(** Pairs every item with the text of its index, counting from [i]. *)
Fixpoint indexed (i : nat) (items : list JSON) : list (string * JSON) :=
  match items with
  | [] => []
  | x :: rest => (indexKey i, x) :: indexed (S i) rest
  end.

(** [Object.entries(v)]. *)
Definition entries (v : Value) : Outcome (list (string * JSON)) :=
  match v with
  | None | Some JNull => inl (mkError "TypeError" "Cannot convert undefined or null to object")
  | Some (JObj fields) => inr fields
  | Some (JArr items) => inr (indexed 0 items)
  | Some (JStr s) => inr (indexed 0 (chars s))
  | Some _ => inr []
  end.

End Js.
Import Js.

(** ** The classifier *)

Definition X_GROUP_VERSION_KIND : string := "x-kubernetes-group-version-kind".

(** [tryGetObjectName(def)]: the first entry of the annotation, or
    [undefined]. *)
Definition tryGetObjectName (def : JSON) : Outcome Value :=
  objectNames ← getProp (Some def) X_GROUP_VERSION_KIND;
  if negb (truthy objectNames) then mret undefined
  else
    objectName ← getIndex objectNames 0;
    if negb (truthy objectName) then mret undefined
    else
      properties ← getProp (Some def) "properties";
      metadata ← getPropOpt properties "metadata";
      if negb (truthy metadata) then mret undefined
      else mret objectName.

(** ** Text *)

(** The segments of [s] between its separators; there is always at least
    one segment.  [split sep s] is [s.split(sep)] for a separator of one
    character. *)
Fixpoint splitAt (isSep : ascii -> bool) (s : string) : list string :=
  match s with
  | EmptyString => [EmptyString]
  | String c rest =>
    if isSep c then EmptyString :: splitAt isSep rest
    else match splitAt isSep rest with
         | seg :: segs => String c seg :: segs
         | [] => [String c EmptyString]
         end
  end.

Definition split (sep : ascii) (s : string) : list string :=
  splitAt (fun c => Ascii.eqb c sep) s.

Definition isDigit (c : ascii) : bool :=
  (48 <=? nat_of_ascii c)%nat && (nat_of_ascii c <=? 57)%nat.

Definition isLower (c : ascii) : bool :=
  (97 <=? nat_of_ascii c)%nat && (nat_of_ascii c <=? 122)%nat.

(** What is left of [s] after its longest prefix of characters in the
    class [p]. *)
Fixpoint skipWhile (p : ascii -> bool) (s : string) : string :=
  match s with
  | EmptyString => EmptyString
  | String c rest => if p c then skipWhile p rest else s
  end.

(** The regular expression [p+] at the head of [s]: what follows the
    longest non-empty run, if there is one. *)
Definition oneOrMore (p : ascii -> bool) (s : string) : option string :=
  match s with
  | EmptyString => None
  | String c rest => if p c then Some (skipWhile p rest) else None
  end.

(** One given character at the head of [s]. *)
Definition literal (c : ascii) (s : string) : option string :=
  match s with
  | EmptyString => None
  | String c' rest => if Ascii.eqb c' c then Some rest else None
  end.

(** The end of the input. *)
Definition atEnd (s : string) : bool :=
  match s with EmptyString => true | _ => false end.

(** The double quote, which a string literal cannot hold. *)
Definition dquote : string := String (ascii_of_nat 34) EmptyString.

(** ** Type identifiers and descriptors *)

Module TypeName.
(** The structured version of a type identifier; the importer reads its
    [raw] text only. *)
Record Version : Type := mkVersion { raw : string }.

(** What [parseApiTypeName] returns. *)
Record t : Type := mk {
  fullname : string;
  basename : string;
  group : option string;
  version : option Version
}.
End TypeName.

Module ApiObject.
(** [ApiObjectDefinition]: one discovered API object.  The identity triple
    is copied from the annotation as it is found there. *)
Record t : Type := mk {
  custom : bool;
  fqn : string;
  group : Value;
  kind : Value;
  version : Value;
  schema : JSON;
  prefix : string
}.
End ApiObject.

(** ** The scan of the definition graph *)

(** [schema.definitions || { }], enumerated by [Object.entries]. *)
Definition definitionEntries (schema : JSON) : Outcome (list (string * JSON)) :=
  definitions ← getProp (Some schema) "definitions";
  entries (if truthy definitions then definitions else Some (JObj [])).

Section Scan.

(** [parseApiTypeName] of [k8s-util], which may throw. *)
Variable parseApiTypeName : string -> Outcome TypeName.t.

(** One turn of the loop of [findApiObjectDefinitions]: what [result]
    holds after the entry, an entry that is skipped leaving it as it is. *)
Definition scanEntry (prefix : string) (result : list ApiObject.t)
           (entry : string * JSON) : Outcome (list ApiObject.t) :=
  let '(typename, apischema) := entry in
  objectName ← tryGetObjectName apischema;
  if negb (truthy objectName) then mret result
  else
    type ← parseApiTypeName typename;
    match TypeName.version type with
    | None => throw (newError ("Unable to parse version for type: " +:+ typename))
    | Some _ =>
      group ← getProp objectName "group";
      kind ← getProp objectName "kind";
      version ← getProp objectName "version";
      mret (result ++ [ApiObject.mk false (TypeName.fullname type)
                                    group kind version apischema prefix])
    end.

(** The loop, over the entries that are left. *)
Fixpoint scanEntries (prefix : string) (todo : list (string * JSON))
         (result : list ApiObject.t) : Outcome (list ApiObject.t) :=
  match todo with
  | [] => mret result
  | entry :: rest =>
    result' ← scanEntry prefix result entry;
    scanEntries prefix rest result'
  end.

Definition findApiObjectDefinitions (schema : JSON) (prefix : string)
  : Outcome (list ApiObject.t) :=
  todo ← definitionEntries schema;
  scanEntries prefix todo [].

(** The version that [parseApiTypeName] finds in a definition key, if it
    returns and finds one. *)
Definition parsedVersion (typename : string) : option TypeName.Version :=
  match parseApiTypeName typename with
  | inl _ => None
  | inr type => TypeName.version type
  end.

End Scan.

(** Modelled from the spec: [parseApiTypeName] is defined in [k8s-util],
    which is not among the sources.  A key is a path-like namespace,
    optionally a version segment, and a basename, as in [grp/v1.Widget];
    its segments are separated by [.] or [/].  The version segment is the
    segment before the basename when it starts with [v] and a digit; it is
    well formed when it is [v], a number, and optionally a lower-case level
    word and a number; a version segment that is not well formed is an
    error.  Without a version segment the identifier has no version and no
    group. *)
Definition parseApiTypeName_spec (fullname : string) : Outcome TypeName.t :=
  let parts := splitAt (fun c => Ascii.eqb c "." || Ascii.eqb c "/") fullname in
  let basename := List.last parts EmptyString in
  let before := List.removelast parts in
  let segment := List.last before EmptyString in
  match major ← literal "v" segment; oneOrMore isDigit major with
  | None => mret (TypeName.mk fullname basename None None)
  | Some afterMajor =>
    let wellFormed :=
      atEnd afterMajor ||
      match afterLevel ← oneOrMore isLower afterMajor;
            oneOrMore isDigit afterLevel with
      | Some tail => atEnd tail
      | None => false
      end in
    if wellFormed
    then mret (TypeName.mk fullname basename
                           (Some (String.concat "." (List.removelast before)))
                           (Some (TypeName.mkVersion segment)))
    else throw (newError ("InvalidIdentifierFormat: " +:+ fullname))
  end.

(** ** Calls to the outside *)

(** What the importer asks of its collaborators, in the order of the calls:
    the console, the network, the schema parser, the rendering engine
    ([TypeGenerator] of json2jsii), the construct generator and the output
    file. *)
Inductive Event : Type :=
| ConsoleError (msg : string)
| Download (url : string)
| SafeParseJsonSchema (text : string)
| AddDefinition (typeName : string) (def : JSON)
| GenerateConstruct (o : ApiObject.t)
| EmitHeader (custom : bool)
| Render
| CodeLine (text : string).

(** A computation that makes such calls: the trace of the calls made, and
    the outcome.  Nothing is called after a [throw]. *)
Definition Traced (A : Type) : Type := (list Event * Outcome A)%type.

#[export] Instance traced_ret : MRet Traced := fun _ a => ([], inr a).
#[export] Instance traced_bind : MBind Traced :=
  fun _ _ k m =>
    match m with
    | (t, inl e) => (t, inl e)
    | (t, inr a) => let '(t', r) := k a in (t ++ t', r)
    end.

(** A step that makes no call. *)
Definition quiet {A : Type} (r : Outcome A) : Traced A := ([], r).

(** A call that returns nothing. *)
Definition emit (ev : Event) : Traced unit := ([ev], inr tt).

(** A call together with what it returns or throws. *)
Definition call {A : Type} (ev : Event) (r : Outcome A) : Traced A := ([ev], r).

(** [try { m } catch (e) { handler e }]. *)
Definition tryCatch {A : Type} (m : Traced A) (handler : JsError -> Traced A)
  : Traced A :=
  match m with
  | (t, inl e) => let '(t', r) := handler e in (t ++ t', r)
  | (t, inr a) => (t, inr a)
  end.

(** [for (const x of xs) { s = body(s, x) }]. *)
Fixpoint forEach {S X : Type} (body : S -> X -> Traced S) (s : S) (xs : list X)
  : Traced S :=
  match xs with
  | [] => mret s
  | x :: rest => s' ← body s x; forEach body s' rest
  end.

(** ** The matcher *)

Definition DEFAULT_API_VERSION : string := "1.25.0".
Definition DEFAULT_CLASS_NAME_PREFIX : string := "Kube".

Record ImportSpec : Type := { source : string }.

(** The command line, of which the matcher reads [exclude]. *)
Record Argv : Type := { argvExclude : option (list string) }.

Record ImportKubernetesApiOptions : Type := {
  apiVersion : string;
  exclude : option (list string)
}.

(** The regular expression [^\d+\.\d+\.\d+$], as [test] runs it. *)
Definition k8sVersionRegex_test (k8sVersion : string) : bool :=
  match
    afterMajor ← oneOrMore isDigit k8sVersion;
    minor ← literal "." afterMajor;
    afterMinor ← oneOrMore isDigit minor;
    patch ← literal "." afterMinor;
    oneOrMore isDigit patch
  with
  | Some tail => atEnd tail
  | None => false
  end.

(** [source.split('@')[1]], which is [undefined] when there is one segment
    only. *)
Definition explicitVersion (source : string) : option string :=
  nth_error (split "@" source) 1.

(** [source.split('@')[1] ?? DEFAULT_API_VERSION]: the version that the
    matcher validates. *)
Definition selectedVersion (source : string) : string :=
  match explicitVersion source with
  | Some v => v
  | None => DEFAULT_API_VERSION
  end.

Definition versionFormatError (k8sVersion : string) : JsError :=
  newError ("Expected k8s version " +:+ dquote +:+ k8sVersion +:+ dquote +:+
            " to match format " +:+ dquote +:+ "<major>.<minor>.<patch>" +:+
            dquote +:+ ".").

Module ImportKubernetesApi.

(** [ImportKubernetesApi.match]: [None] is the [undefined] of a source
    that is not of this family. *)
Definition match_ (importSpec : ImportSpec) (argv : Argv)
  : Traced (option ImportKubernetesApiOptions) :=
  let source := source importSpec in
  if negb (String.eqb source "k8s") && negb (String.prefix "k8s@" source)
  then mret None
  else
    let k8sVersion := selectedVersion source in
    if negb (k8sVersionRegex_test k8sVersion)
    then quiet (throw (versionFormatError k8sVersion))
    else
      _ ← emit (ConsoleError ("Importing k8s v" +:+ k8sVersion +:+ "..."));
      mret (Some {| apiVersion := k8sVersion; exclude := argvExclude argv |}).

End ImportKubernetesApi.

(** ** The download step *)

Definition schemaUrl (apiVersion : string) : string :=
  "https://raw.githubusercontent.com/cdk8s-team/cdk8s/master/kubernetes-schemas/v"
  +:+ apiVersion +:+ "/_definitions.json".

Definition schemaNotFoundHint (apiVersion : string) : string :=
  "Could not find a schema for k8s version " +:+ apiVersion +:+
  ". The current list of available schemas is at https://github.com/cdk8s-team/cdk8s/tree/master/kubernetes-schemas.".

Section Download.

(** [download] of [util]: the text found at a URL, or a failure. *)
Variable download : string -> Outcome string.
(** [safeParseJsonSchema] of [k8s-util]. *)
Variable safeParseJsonSchema : string -> Outcome JSON.

Definition downloadSchema (apiVersion : string) : Traced JSON :=
  let url := schemaUrl apiVersion in
  output ← tryCatch (call (Download url) (download url))
             (fun e =>
                _ ← emit (ConsoleError (schemaNotFoundHint apiVersion));
                quiet (throw e));
  tryCatch (call (SafeParseJsonSchema output) (safeParseJsonSchema output))
    (fun e =>
       quiet (throw (newError ("Unable to parse schema at " +:+ url +:+ ": "
                               +:+ errorToString e)))).

End Download.

(** ** The rendering engine *)

Module TypeGenerator.

(** Modelled from the spec: the rendering engine, [TypeGenerator] of the
    library json2jsii, as the importer uses it: the table of definitions
    that it reads by key, the exclusion list, the function that names a
    definition key, and what it has emitted so far, of a type [Emitted] that
    the importer does not look into. *)
Record t (Emitted : Type) : Type := mk {
  definitions : gmap string JSON;
  excluded : option (list string);
  renderTypeName : string -> Outcome string;
  emitted : Emitted
}.
Arguments mk {Emitted}.
Arguments definitions {Emitted}.
Arguments excluded {Emitted}.
Arguments renderTypeName {Emitted}.
Arguments emitted {Emitted}.

(** Modelled from the spec: [new TypeGenerator({ definitions, exclude,
    renderTypeName })]; the table holds the fields of the [definitions]
    object, if there is one. *)
Definition new {Emitted : Type} (definitions : Value)
           (exclude : option (list string))
           (renderTypeName : string -> Outcome string)
           (nothing : Emitted) : t Emitted :=
  mk (match definitions with
      | Some (JObj fields) => list_to_map fields
      | _ => ∅
      end)
     exclude renderTypeName nothing.

(** Modelled from the spec: [addDefinition(typeName, def)] adds the
    definition under the key, or replaces the one that is there. *)
Definition addDefinition {Emitted : Type} (g : t Emitted)
           (typeName : string) (def : JSON) : t Emitted :=
  mk (<[typeName := def]> (definitions g))
     (excluded g) (renderTypeName g) (emitted g).

End TypeGenerator.

(** ** The generation pipeline *)

Record GenerateOptions : Type := { classNamePrefix : option string }.

(** The object [{ $ref: target }]. *)
Definition refTo (target : string) : JSON := JObj [("$ref", JStr target)].

Section Generate.

Variable download : string -> Outcome string.
Variable safeParseJsonSchema : string -> Outcome JSON.
Variable parseApiTypeName : string -> Outcome TypeName.t.

(** [getTypeName] and [getPropsTypeName] of [codegen]. *)
Variable getTypeName : bool -> string -> string -> string.
Variable getPropsTypeName : ApiObject.t -> string.

(** What the rendering engine has emitted, [generateConstruct] of
    [codegen], which emits into the engine, and the engine's [render]. *)
Variable Emitted : Type.
Variable nothing : Emitted.
Variable generateConstruct :
  TypeGenerator.t Emitted -> ApiObject.t -> Outcome (TypeGenerator.t Emitted).
Variable render : TypeGenerator.t Emitted -> Outcome string.

(** The [renderTypeName] that the pipeline hands to the engine. *)
Definition renderTypeName (def : string) : Outcome string :=
  parsed ← parseApiTypeName def;
  match TypeName.version parsed with
  | None => mret (TypeName.basename parsed)
  | Some version =>
    mret (getTypeName false (TypeName.basename parsed) (TypeName.raw version))
  end.

(** What replaces the definition of an API object. *)
Definition propsRef (o : ApiObject.t) : JSON :=
  refTo ("#/definitions/" +:+ getPropsTypeName o).

(** The first loop: every descriptor's key is given a [$ref] to its
    properties type. *)
Definition rewriteDefinitions (typeGenerator : TypeGenerator.t Emitted)
           (topLevelObjects : list ApiObject.t)
  : Traced (TypeGenerator.t Emitted) :=
  forEach (fun g o =>
             call (AddDefinition (ApiObject.fqn o) (propsRef o))
                  (mret (TypeGenerator.addDefinition g (ApiObject.fqn o) (propsRef o))))
          typeGenerator topLevelObjects.

(** The second loop: the construct of every descriptor is emitted. *)
Definition emitConstructs (typeGenerator : TypeGenerator.t Emitted)
           (topLevelObjects : list ApiObject.t)
  : Traced (TypeGenerator.t Emitted) :=
  forEach (fun g o => call (GenerateConstruct o) (generateConstruct g o))
          typeGenerator topLevelObjects.

(** The class-name prefix of a run. *)
Definition prefixOf (options : GenerateOptions) : string :=
  match classNamePrefix options with
  | Some p => p
  | None => DEFAULT_CLASS_NAME_PREFIX
  end.

(** [generateTypeScript(code, moduleName, options)], on an importer built
    with the options [this]. *)
Definition generateTypeScript (this : ImportKubernetesApiOptions)
           (moduleName : string) (options : GenerateOptions) : Traced unit :=
  schema ← downloadSchema download safeParseJsonSchema (apiVersion this);
  if negb (String.eqb moduleName "k8s")
  then quiet (throw (newError
         ("unexpected module name " +:+ dquote +:+ moduleName +:+ dquote +:+
          " when importing k8s types (expected " +:+ dquote +:+ "k8s" +:+
          dquote +:+ ")")))
  else
    let prefix := prefixOf options in
    topLevelObjects ← quiet (findApiObjectDefinitions parseApiTypeName schema prefix);
    definitions ← quiet (getProp (Some schema) "definitions");
    let typeGenerator :=
      TypeGenerator.new definitions (exclude this) renderTypeName nothing in
    typeGenerator ← rewriteDefinitions typeGenerator topLevelObjects;
    typeGenerator ← emitConstructs typeGenerator topLevelObjects;
    _ ← emit (EmitHeader false);
    text ← call Render (render typeGenerator);
    emit (CodeLine text).

End Generate.

Arguments rewriteDefinitions getPropsTypeName {Emitted}.
Arguments emitConstructs {Emitted}.
Arguments generateTypeScript download safeParseJsonSchema parseApiTypeName
  getTypeName getPropsTypeName {Emitted}.

(** Modelled from the spec: the capitalization of a kind, which [codegen]
    (not among the sources) normalizes: the first letter in upper case. *)
Definition capitalize (s : string) : string :=
  match s with
  | EmptyString => EmptyString
  | String c rest =>
    String (if isLower c then ascii_of_nat (nat_of_ascii c - 32) else c) rest
  end.

(** Modelled from the spec: the text that the kind of a descriptor gives to
    its derived names in [codegen] (not among the sources).  A kind that is
    not a string gives no text. *)
Definition kindText (o : ApiObject.t) : string :=
  match ApiObject.kind o with
  | Some (JStr s) => capitalize s
  | _ => EmptyString
  end.

(** Modelled from the spec: the name of the wrapper type of a descriptor,
    which [codegen] (not among the sources) derives: the prefix followed by
    the kind. *)
Definition getConstructTypeName_spec (o : ApiObject.t) : string :=
  ApiObject.prefix o +:+ kindText o.

(** Modelled from the spec: [getPropsTypeName] of [codegen] (not among the
    sources): the wrapper name followed by [Props]. *)
Definition getPropsTypeName_spec (o : ApiObject.t) : string :=
  getConstructTypeName_spec o +:+ "Props".

(** ** Notions of the statements *)

Definition isObject (v : JSON) : bool :=
  match v with JObj _ => true | _ => false end.

(** The entries of the identity annotation of a definition node, when the
    node carries the annotation. *)
Definition gvkAnnotation (def : JSON) : option (list JSON) :=
  match def with
  | JObj fields =>
    match assoc X_GROUP_VERSION_KIND fields with
    | Some (JArr triples) => Some triples
    | _ => None
    end
  | _ => None
  end.

(** Whether a definition node declares a property called [metadata]. *)
Definition declaresMetadata (def : JSON) : bool :=
  match def with
  | JObj fields =>
    match assoc "properties" fields with
    | Some (JObj properties) => bool_decide (is_Some (assoc "metadata" properties))
    | _ => false
    end
  | _ => false
  end.

(** A schema definition node, as [JSONSchema4] and the cast of the
    classifier type it: an object whose annotation, when present, is an
    array of [GroupVersionKind] objects, and whose [properties], when
    present, is an object of schema objects. *)
Definition schemaNode (def : JSON) : bool :=
  match def with
  | JObj fields =>
    match assoc X_GROUP_VERSION_KIND fields with
    | None => true
    | Some (JArr triples) => forallb isObject triples
    | Some _ => false
    end &&
    match assoc "properties" fields with
    | None => true
    | Some (JObj properties) => forallb (fun p => isObject (snd p)) properties
    | Some _ => false
    end
  | _ => false
  end.

(** Reading a property of a truthy value returns: the field of an object,
    [undefined] of anything else. *)
Definition fieldOf (v : Value) (k : string) : Value :=
  match v with
  | Some (JObj fields) => assoc k fields
  | _ => None
  end.

(** Runs the sequencing of outcomes, and nothing else. *)
Ltac run := cbn [mbind mret outcome_bind outcome_ret throw negb].

Section ScanCases.

Variable parseApiTypeName : string -> Outcome TypeName.t.

(** The descriptor of an accepted entry. *)
Definition descriptor (prefix : string) (type : TypeName.t)
           (objectName : JSON) (apischema : JSON) : ApiObject.t :=
  ApiObject.mk false (TypeName.fullname type)
               (fieldOf (Some objectName) "group")
               (fieldOf (Some objectName) "kind")
               (fieldOf (Some objectName) "version")
               apischema prefix.

(** One turn of the loop, by cases: it throws, or skips an entry that the
    classifier rejects, or pushes the descriptor of an entry that the
    classifier accepts and whose key has a version. *)
Inductive Turn (prefix : string) (result : list ApiObject.t)
          (typename : string) (apischema : JSON)
  : Outcome (list ApiObject.t) -> Prop :=
| TurnThrows e :
    Turn prefix result typename apischema (inl e)
| TurnSkips :
    tryGetObjectName apischema = inr None ->
    Turn prefix result typename apischema (inr result)
| TurnPushes objectName type v :
    tryGetObjectName apischema = inr (Some objectName) ->
    parseApiTypeName typename = inr type ->
    TypeName.version type = Some v ->
    Turn prefix result typename apischema
         (inr (result ++ [descriptor prefix type objectName apischema])).

End ScanCases.

(** ** Sample schemas *)

Definition widgetGvk : JSON :=
  JObj [("group", JStr "grp"); ("kind", JStr "Widget"); ("version", JStr "v1")].

Definition legacyGvk : JSON :=
  JObj [("group", JStr "legacy"); ("kind", JStr "Widget"); ("version", JStr "v1beta1")].

(** An API object: the annotation lists two triples, and there is a
    [metadata] property. *)
Definition widgetNode : JSON :=
  JObj [("type", JStr "object");
        ("properties",
         JObj [("metadata", JObj [("$ref", JStr "#/definitions/meta.v1.ObjectMeta")]);
               ("spec", JObj [("$ref", JStr "#/definitions/grp/v1.WidgetSpec")])]);
        (X_GROUP_VERSION_KIND, JArr [widgetGvk; legacyGvk])].

(** A data shape that no annotation identifies. *)
Definition widgetSpecNode : JSON :=
  JObj [("type", JStr "object");
        ("properties", JObj [("replicas", JObj [("type", JStr "integer")])])].

(** An annotated helper shape without [metadata]. *)
Definition deleteOptionsNode : JSON :=
  JObj [("type", JStr "object");
        ("properties", JObj [("dryRun", JObj [("type", JStr "array")])]);
        (X_GROUP_VERSION_KIND, JArr [widgetGvk])].

(** A node whose annotation is an empty list. *)
Definition unlistedNode : JSON :=
  JObj [("properties", JObj [("metadata", JObj [])]);
        (X_GROUP_VERSION_KIND, JArr [])].

(** The graph of the end-to-end scenario. *)
Definition widgetSchema : JSON :=
  JObj [("definitions",
         JObj [("grp/v1.Widget", widgetNode);
               ("grp/v1.WidgetSpec", widgetSpecNode)])].

(** A graph whose second API object has a key without a version. *)
Definition brokenSchema : JSON :=
  JObj [("definitions",
         JObj [("grp/v1.Widget", widgetNode);
               ("Gadget", widgetNode)])].

(** A graph in which two keys carry the same identity. *)
Definition twinSchema : JSON :=
  JObj [("definitions",
         JObj [("grp/v1.Widget", widgetNode);
               ("other/v1.Widget", widgetNode)])].

(** The identity triple of a descriptor. *)
Definition identity (o : ApiObject.t) : Value * Value * Value :=
  (ApiObject.group o, ApiObject.kind o, ApiObject.version o).

(** The identity triple tells the descriptors of a scan apart. *)
Definition identityIsUnique (objs : list ApiObject.t) : Prop :=
  forall o1 o2, In o1 objs -> In o2 objs -> identity o1 = identity o2 -> o1 = o2.

(** The version suffix of a source: what follows its first [@]. *)
Fixpoint versionSuffix (source : string) : option string :=
  match source with
  | EmptyString => None
  | String c rest => if Ascii.eqb c "@" then Some rest else versionSuffix rest
  end.

(** Whether a text holds the character [c]. *)
Fixpoint occurs (c : ascii) (s : string) : bool :=
  match s with
  | EmptyString => false
  | String c' rest => Ascii.eqb c' c || occurs c rest
  end.

(** The sources of the k8s family. *)
Definition k8sFamily (source : string) : bool :=
  String.eqb source "k8s" || String.prefix "k8s@" source.

(** The call that rewrites the key of a descriptor. *)
Definition rewriteOf (getPropsTypeName : ApiObject.t -> string)
           (o : ApiObject.t) : Event :=
  AddDefinition (ApiObject.fqn o) (propsRef getPropsTypeName o).

(** The engine after the keys of the descriptors have been rewritten, one
    after the other. *)
Definition rewritten {Emitted : Type} (getPropsTypeName : ApiObject.t -> string)
           (g : TypeGenerator.t Emitted) (objs : list ApiObject.t)
  : TypeGenerator.t Emitted :=
  fold_left (fun g o => TypeGenerator.addDefinition g (ApiObject.fqn o)
                                                    (propsRef getPropsTypeName o))
            objs g.

Definition isAddDefinition (ev : Event) : bool :=
  match ev with AddDefinition _ _ => true | _ => false end.

Definition isGenerateConstruct (ev : Event) : bool :=
  match ev with GenerateConstruct _ => true | _ => false end.

(** An engine that emits nothing, for the sample runs. *)
Definition idleConstruct (g : TypeGenerator.t unit) (o : ApiObject.t)
  : Outcome (TypeGenerator.t unit) := inr g.

Definition idleRender (g : TypeGenerator.t unit) : Outcome string :=
  inr "// generated".

(** A run of the pipeline on a schema that the network returns, with the
    default prefix. *)
Definition sampleRun (schema : JSON) : Traced unit :=
  generateTypeScript (fun _ => inr "{}") (fun _ => inr schema)
                     parseApiTypeName_spec
                     (fun _ kind version => kind +:+ version)
                     getPropsTypeName_spec tt idleConstruct idleRender
                     {| apiVersion := "1.25.0"; exclude := None |}
                     "k8s" {| classNamePrefix := None |}.

(** The descriptors of the graph in which two keys carry the same
    identity. *)
Definition twinA : ApiObject.t :=
  descriptor "Kube"
             (TypeName.mk "grp/v1.Widget" "Widget" (Some "grp")
                          (Some (TypeName.mkVersion "v1")))
             widgetGvk widgetNode.

Definition twinB : ApiObject.t :=
  descriptor "Kube"
             (TypeName.mk "other/v1.Widget" "Widget" (Some "other")
                          (Some (TypeName.mkVersion "v1")))
             widgetGvk widgetNode.

Definition gadgetGvk : JSON :=
  JObj [("group", JStr "grp"); ("kind", JStr "gadget"); ("version", JStr "v1")].

Definition gadgetNode : JSON :=
  JObj [("properties", JObj [("metadata", JObj [])]);
        (X_GROUP_VERSION_KIND, JArr [gadgetGvk])].

(** A graph of two API objects of different kinds. *)
Definition pairSchema : JSON :=
  JObj [("definitions",
         JObj [("grp/v1.Widget", widgetNode);
               ("grp/v1.Gadget", gadgetNode)])].


(** Runs the sequencing of traced computations. *)
Ltac trun :=
  cbn [mbind mret traced_bind traced_ret outcome_bind outcome_ret
       quiet emit call throw negb fst snd].


(** ** Further notions of the statements *)

(** [moduleNames] of the importer. *)
Definition moduleNames : list string := ["k8s"].

(** The error of [generateTypeScript] on a module name that is not
    expected. *)
Definition unexpectedModuleName (moduleName : string) : JsError :=
  newError ("unexpected module name " +:+ dquote +:+ moduleName +:+ dquote +:+
            " when importing k8s types (expected " +:+ dquote +:+ "k8s" +:+
            dquote +:+ ")").

(** Whether every character of a text is in the class [p]. *)
Fixpoint allIn (p : ascii -> bool) (s : string) : bool :=
  match s with
  | EmptyString => true
  | String c rest => p c && allIn p rest
  end.

(** A number in decimal digits: at least one digit, and digits only. *)
Definition digitRun (s : string) : bool :=
  negb (String.eqb s EmptyString) && allIn isDigit s.

(** The descriptor that the scan pushes for an entry, if it pushes one. *)
Definition describe (parseApiTypeName : string -> Outcome TypeName.t)
           (prefix : string) (entry : string * JSON) : option ApiObject.t :=
  match tryGetObjectName (snd entry) with
  | inr (Some objectName) =>
    match parseApiTypeName (fst entry) with
    | inr type =>
      match TypeName.version type with
      | Some _ => Some (descriptor prefix type objectName (snd entry))
      | None => None
      end
    | inl _ => None
    end
  | _ => None
  end.

(** Whether the classifier accepts a node. *)
Definition accepted (node : JSON) : Prop :=
  exists objectName, tryGetObjectName node = inr (Some objectName).

(** The schema whose definition map has the given entries. *)
Definition schemaOf (definitions : list (string * JSON)) : JSON :=
  JObj [("definitions", JObj definitions)].

(** The calls of the download step. *)
Definition isDownloadStep (ev : Event) : bool :=
  match ev with
  | Download _ | ConsoleError _ | SafeParseJsonSchema _ => true
  | _ => false
  end.

(** The keys of the descriptors, as a set. *)
Definition keysOf (objs : list ApiObject.t) : gset string :=
  list_to_set (map ApiObject.fqn objs).

(** A construct generator that fails on one key, for the sample runs. *)
Definition failingConstruct (key : string) (g : TypeGenerator.t unit)
           (o : ApiObject.t) : Outcome (TypeGenerator.t unit) :=
  if String.eqb (ApiObject.fqn o) key
  then inl (newError ("cannot generate " +:+ key))
  else inr g.

(** The characters of a version that passes the format. *)
Definition isVersionChar (c : ascii) : bool := isDigit c || Ascii.eqb c ".".

(** ** The pipeline after the rewrite *)

(** What the pipeline does once the keys have been rewritten, on the engine
    that the first loop leaves: the second loop, the header, the rendering
    and the line of output. *)
Definition finishRun {Emitted : Type}
           (generateConstruct :
              TypeGenerator.t Emitted -> ApiObject.t -> Outcome (TypeGenerator.t Emitted))
           (render : TypeGenerator.t Emitted -> Outcome string)
           (typeGenerator : TypeGenerator.t Emitted)
           (topLevelObjects : list ApiObject.t) : Traced unit :=
  typeGenerator ← emitConstructs generateConstruct typeGenerator topLevelObjects;
  _ ← emit (EmitHeader false);
  text ← call Render (render typeGenerator);
  emit (CodeLine text).

(** A computation that follows calls already made. *)
Definition after {A : Type} (made : list Event) (m : Traced A) : Traced A :=
  (made ++ fst m, snd m).


(** A construct generator that looks into the engine: it throws unless the
    key of the descriptor holds the reference to its properties type. *)
Definition probeConstruct (getPropsTypeName : ApiObject.t -> string)
           (g : TypeGenerator.t unit) (o : ApiObject.t)
  : Outcome (TypeGenerator.t unit) :=
  match TypeGenerator.definitions g !! ApiObject.fqn o with
  | Some (JObj [(field, JStr target)]) =>
    if String.eqb field "$ref" &&
       String.eqb target ("#/definitions/" +:+ getPropsTypeName o)
    then inr g
    else inl (newError ("not rewritten: " +:+ ApiObject.fqn o))
  | _ => inl (newError ("not rewritten: " +:+ ApiObject.fqn o))
  end.

(** The descriptors of the graph of two kinds. *)
Definition pairWidget : ApiObject.t :=
  descriptor "Kube"
             (TypeName.mk "grp/v1.Widget" "Widget" (Some "grp")
                          (Some (TypeName.mkVersion "v1")))
             widgetGvk widgetNode.

Definition pairGadget : ApiObject.t :=
  descriptor "Kube"
             (TypeName.mk "grp/v1.Gadget" "Gadget" (Some "grp")
                          (Some (TypeName.mkVersion "v1")))
             gadgetGvk gadgetNode.




(** A renderer that fails, for the sample runs. *)
Definition failingRender (g : TypeGenerator.t unit) : Outcome string :=
  inl (newError "cannot render").

(** A run of the pipeline whose rendering fails. *)
Definition unrenderedRun (schema : JSON) : Traced unit :=
  generateTypeScript (fun _ => inr "{}") (fun _ => inr schema)
                     parseApiTypeName_spec
                     (fun _ kind version => kind +:+ version)
                     getPropsTypeName_spec tt idleConstruct failingRender
                     {| apiVersion := "1.25.0"; exclude := None |}
                     "k8s" {| classNamePrefix := None |}.
(** * Properties *)

(** ** The classifier *)

Lemma isObject_truthy (v : JSON) : isObject v = true -> truthy (Some v) = true.
Proof. destruct v; simpl; congruence. Qed.

Lemma assoc_In (k : string) (fields : list (string * JSON)) (v : JSON) :
  assoc k fields = Some v -> In (k, v) fields.
Proof.
  induction fields as [| [k' v'] rest IH]; simpl; [discriminate |].
  destruct (String.eqb k k') eqn:E.
  - apply String.eqb_eq in E. intros [= ->]. left. congruence.
  - intros H. right. auto.
Qed.

Lemma assoc_isObject (k : string) (fields : list (string * JSON)) (v : JSON) :
  forallb (fun p => isObject (snd p)) fields = true ->
  assoc k fields = Some v -> isObject v = true.
Proof.
  intros Hall Hk. apply assoc_In in Hk.
  rewrite forallb_forall in Hall. exact (Hall _ Hk).
Qed.

(** The classifier never throws on a definition node that is not [null]. *)
Lemma tryGetObjectName_returns (def : JSON) :
  def <> JNull -> exists r, tryGetObjectName def = inr r.
Proof.
  intros Hnull. unfold tryGetObjectName.
  destruct (getProp (Some def) X_GROUP_VERSION_KIND) as [e | names] eqn:E1.
  { destruct def; simpl in E1; congruence. }
  run. destruct (truthy names) eqn:T1; run; [| eauto].
  destruct (getIndex names 0) as [e | first] eqn:E2.
  { destruct names as [[] |]; simpl in *; congruence. }
  run. destruct (truthy first) eqn:T2; run; [| eauto].
  destruct (getProp (Some def) "properties") as [e | props] eqn:E3.
  { destruct def; simpl in E3; congruence. }
  run. destruct (getPropOpt props "metadata") as [e | meta] eqn:E4.
  { destruct props as [[] |]; simpl in E4; congruence. }
  run. destruct (truthy meta); run; eauto.
Qed.

(** What the classifier returns is [undefined] or truthy. *)
Lemma tryGetObjectName_truthy (def : JSON) (r : Value) :
  tryGetObjectName def = inr r -> r = None \/ truthy r = true.
Proof.
  unfold tryGetObjectName.
  destruct (getProp (Some def) X_GROUP_VERSION_KIND) as [e | names]; run; [discriminate |].
  destruct (truthy names); run; [| intros [= <-]; auto].
  destruct (getIndex names 0) as [e | first]; run; [discriminate |].
  destruct (truthy first) eqn:T; run; [| intros [= <-]; auto].
  destruct (getProp (Some def) "properties") as [e | props]; run; [discriminate |].
  destruct (getPropOpt props "metadata") as [e | meta]; run; [discriminate |].
  destruct (truthy meta); run; intros [= <-]; auto.
Qed.

(** On a schema definition node the classifier computes the first entry of
    the annotation, provided there is a [metadata] property. *)
Lemma tryGetObjectName_schemaNode (def : JSON) :
  schemaNode def = true ->
  tryGetObjectName def =
  inr (match gvkAnnotation def with
       | Some (first :: _) => if declaresMetadata def then Some first else None
       | _ => None
       end).
Proof.
  destruct def as [| | | | | fields]; simpl; try discriminate.
  intros H. apply andb_prop in H as [Hgvk Hprops].
  unfold tryGetObjectName, getProp. run.
  destruct (assoc X_GROUP_VERSION_KIND fields) as [[| | | | triples |] |];
    try discriminate; [| reflexivity].
  cbn [truthy]. run. unfold getIndex.
  destruct triples as [| first rest]; [reflexivity |].
  simpl in Hgvk. apply andb_prop in Hgvk as [Hfirst _].
  cbn [nth_error]. run. rewrite (isObject_truthy _ Hfirst). run.
  destruct (assoc "properties" fields) as [[| | | | | properties] |];
    try discriminate; [| reflexivity].
  unfold getPropOpt, getProp.
  destruct (assoc "metadata" properties) as [meta |] eqn:Hmeta; run.
  - rewrite (isObject_truthy _ (assoc_isObject _ _ _ Hprops Hmeta)). run.
    rewrite bool_decide_eq_true_2; [reflexivity | eauto].
  - cbn [truthy]. run.
    rewrite bool_decide_eq_false_2; [reflexivity |].
    intros [? ?]; discriminate.
Qed.

(** C1.  On every schema definition node the classifier returns without
    throwing; it returns a triple exactly when the node carries the identity
    annotation with at least one entry and declares a [metadata] property,
    and the triple is then the first entry of the annotation; in every other
    case it returns [undefined]. *)
Theorem tryGetObjectName_classifies (def : JSON) :
  schemaNode def = true ->
  (exists r, tryGetObjectName def = inr r) /\
  (forall triple,
      tryGetObjectName def = inr (Some triple) <->
      (exists rest, gvkAnnotation def = Some (triple :: rest)) /\
      declaresMetadata def = true) /\
  (tryGetObjectName def = inr None <->
   ~ ((exists first rest, gvkAnnotation def = Some (first :: rest)) /\
      declaresMetadata def = true)).
Proof.
  intros Hnode. rewrite (tryGetObjectName_schemaNode def Hnode).
  split; [eauto |].
  destruct (gvkAnnotation def) as [[| first rest] |];
    destruct (declaresMetadata def);
    (split; [intros triple |]); naive_solver.
Qed.

(** ** The scan *)

Lemma getProp_truthy (v : Value) (k : string) :
  truthy v = true -> getProp v k = inr (fieldOf v k).
Proof. destruct v as [[] |]; simpl; congruence. Qed.

Section ScanFacts.

Variable parseApiTypeName : string -> Outcome TypeName.t.

Lemma scanEntry_turn prefix result typename apischema :
  Turn parseApiTypeName prefix result typename apischema
       (scanEntry parseApiTypeName prefix result (typename, apischema)).
Proof.
  unfold scanEntry.
  destruct (tryGetObjectName apischema) as [e | [objectName |]] eqn:Hc; run.
  - constructor.
  - destruct (tryGetObjectName_truthy _ _ Hc) as [? | Ht]; [discriminate |].
    rewrite Ht. run.
    destruct (parseApiTypeName typename) as [e | type] eqn:Hp; run;
      [constructor |].
    destruct (TypeName.version type) as [v |] eqn:Hv; [| constructor].
    rewrite !(getProp_truthy _ _ Ht). run.
    now apply TurnPushes with (v := v).
  - cbn [truthy]. run. now constructor.
Qed.

(** An accepted entry whose key parses without a version throws the
    error that names the key. *)
Lemma scanEntry_no_version prefix result typename apischema objectName type :
  tryGetObjectName apischema = inr (Some objectName) ->
  parseApiTypeName typename = inr type ->
  TypeName.version type = None ->
  scanEntry parseApiTypeName prefix result (typename, apischema) =
  inl (newError ("Unable to parse version for type: " +:+ typename)).
Proof.
  intros Hc Hp Hv. unfold scanEntry. rewrite Hc. run.
  destruct (tryGetObjectName_truthy _ _ Hc) as [? | Ht]; [discriminate |].
  rewrite Ht. run. rewrite Hp. run. rewrite Hv. reflexivity.
Qed.

(** An accepted entry whose key has a version pushes its descriptor. *)
Lemma scanEntry_push prefix result typename apischema objectName type v :
  tryGetObjectName apischema = inr (Some objectName) ->
  parseApiTypeName typename = inr type ->
  TypeName.version type = Some v ->
  scanEntry parseApiTypeName prefix result (typename, apischema) =
  inr (result ++ [descriptor prefix type objectName apischema]).
Proof.
  intros Hc Hp Hv. unfold scanEntry. rewrite Hc. run.
  destruct (tryGetObjectName_truthy _ _ Hc) as [? | Ht]; [discriminate |].
  rewrite Ht. run. rewrite Hp. run. rewrite Hv.
  rewrite !(getProp_truthy _ _ Ht). reflexivity.
Qed.

Lemma scanEntries_app prefix before after result :
  scanEntries parseApiTypeName prefix (before ++ after) result =
  (scanEntries parseApiTypeName prefix before result
   ≫= scanEntries parseApiTypeName prefix after).
Proof.
  revert result. induction before as [| entry before IH]; intros result.
  - reflexivity.
  - cbn [app scanEntries].
    destruct (scanEntry parseApiTypeName prefix result entry) as [e | result'];
      run; auto.
Qed.

(** An accepted entry whose key has no version makes the loop throw,
    whatever was pushed before and whatever follows. *)
Lemma scanEntries_fatal prefix todo result typename apischema objectName :
  In (typename, apischema) todo ->
  tryGetObjectName apischema = inr (Some objectName) ->
  parsedVersion parseApiTypeName typename = None ->
  exists e, scanEntries parseApiTypeName prefix todo result = inl e.
Proof.
  intros Hin Hc Hv. revert result.
  induction todo as [| [k node] rest IH]; intros result; [destruct Hin |].
  cbn [scanEntries].
  destruct (scanEntry_turn prefix result k node)
    as [e | Hnone | o type v Ho Hp Hsome]; run.
  - eauto.
  - destruct Hin as [[= -> ->] | Hin]; [congruence | auto].
  - destruct Hin as [[= -> ->] | Hin]; [| auto].
    unfold parsedVersion in Hv. rewrite Hp in Hv. congruence.
Qed.

(** When the entries before it are scanned without error, the accepted
    entry whose key parses without a version is the one that the error
    names, and what was pushed for the entries before it is lost. *)
Lemma scanEntries_first_fatal prefix before typename apischema rest result
      objectName type kept :
  scanEntries parseApiTypeName prefix before result = inr kept ->
  tryGetObjectName apischema = inr (Some objectName) ->
  parseApiTypeName typename = inr type ->
  TypeName.version type = None ->
  scanEntries parseApiTypeName prefix (before ++ (typename, apischema) :: rest) result =
  inl (newError ("Unable to parse version for type: " +:+ typename)).
Proof.
  intros Hbefore Hc Hp Hv.
  rewrite scanEntries_app, Hbefore. run. cbn [scanEntries].
  now rewrite (scanEntry_no_version _ _ _ _ _ _ Hc Hp Hv).
Qed.

(** What a scan that returns has pushed: descriptors with the prefix of
    the scan, whose keys are the names that the parser gives to some of
    the scanned keys, in the order of the entries. *)
Lemma scanEntries_pushed prefix todo result objs :
  scanEntries parseApiTypeName prefix todo result = inr objs ->
  exists pushed,
    objs = result ++ pushed /\
    Forall (fun o => ApiObject.prefix o = prefix /\ ApiObject.custom o = false) pushed /\
    exists keys,
      sublist keys (map fst todo) /\
      Forall2 (fun o k => exists type, parseApiTypeName k = inr type /\
                                      ApiObject.fqn o = TypeName.fullname type /\
                                      In (k, ApiObject.schema o) todo)
              pushed keys.
Proof.
  revert result. induction todo as [| [k node] rest IH]; intros result.
  - intros [= <-]. exists []. rewrite app_nil_r.
    repeat split; [constructor |]. exists []. split; constructor.
  - cbn [scanEntries].
    destruct (scanEntry_turn prefix result k node)
      as [e | Hnone | o type v Ho Hp Hsome]; run; [discriminate | |];
      intros H; destruct (IH _ H) as (pushed & -> & Hall & keys & Hsub & Hkeys);
      assert (Forall2 (fun d key => exists type, parseApiTypeName key = inr type /\
                                   ApiObject.fqn d = TypeName.fullname type /\
                                   In (key, ApiObject.schema d) ((k, node) :: rest))
                      pushed keys) as Hkeys'
        by (eapply Forall2_impl; [exact Hkeys |];
            intros o' k' (type' & ? & ? & ?); exists type'; repeat split;
            [assumption | assumption | now right]).
    + exists pushed. repeat split; [assumption |].
      exists keys. split; [| assumption]. now apply sublist_cons.
    + exists (descriptor prefix type o node :: pushed).
      rewrite <- app_assoc. repeat split.
      * constructor; [split; reflexivity | assumption].
      * exists (k :: keys). split; [now apply sublist_skip |].
        constructor; [| assumption]. exists type.
        repeat split; [assumption | now left].
Qed.

End ScanFacts.

(** C2.  If an entry that the classifier accepts has a key in which the
    parser finds no version, the scan throws: it returns no descriptor, not
    even one for an entry scanned before. *)
Theorem findApiObjectDefinitions_all_or_nothing
        (parseApiTypeName : string -> Outcome TypeName.t)
        (schema : JSON) (prefix : string) (todo : list (string * JSON))
        (typename : string) (apischema objectName : JSON) :
  definitionEntries schema = inr todo ->
  In (typename, apischema) todo ->
  tryGetObjectName apischema = inr (Some objectName) ->
  parsedVersion parseApiTypeName typename = None ->
  exists e, findApiObjectDefinitions parseApiTypeName schema prefix = inl e.
Proof.
  intros Htodo Hin Hc Hv. unfold findApiObjectDefinitions.
  rewrite Htodo. run.
  exact (scanEntries_fatal _ _ _ _ _ _ _ Hin Hc Hv).
Qed.

(** The scan of a graph whose second API object has no version: the first
    entry alone yields a descriptor, the graph as a whole yields none. *)
Lemma findApiObjectDefinitions_all_or_nothing_witness :
  (exists o, scanEntries parseApiTypeName_spec "Kube"
                         [("grp/v1.Widget", widgetNode)] [] = inr [o]) /\
  exists e, findApiObjectDefinitions parseApiTypeName_spec brokenSchema "Kube" = inl e.
Proof.
  split; [eexists; vm_compute; reflexivity |].
  apply (findApiObjectDefinitions_all_or_nothing
           parseApiTypeName_spec brokenSchema "Kube"
           [("grp/v1.Widget", widgetNode); ("Gadget", widgetNode)]
           "Gadget" widgetNode widgetGvk).
  - reflexivity.
  - right. left. reflexivity.
  - reflexivity.
  - reflexivity.
Defined.

(** The error of that scan names the key. *)
Example findApiObjectDefinitions_broken :
  findApiObjectDefinitions parseApiTypeName_spec brokenSchema "Kube" =
  inl (newError "Unable to parse version for type: Gadget").
Proof. reflexivity. Qed.

(** The classifier on the sample nodes. *)
Example tryGetObjectName_widget :
  tryGetObjectName widgetNode = inr (Some widgetGvk).
Proof. reflexivity. Qed.

Example tryGetObjectName_no_metadata :
  tryGetObjectName deleteOptionsNode = inr None.
Proof. reflexivity. Qed.

Example tryGetObjectName_empty_annotation :
  tryGetObjectName unlistedNode = inr None.
Proof. reflexivity. Qed.

Example tryGetObjectName_no_annotation :
  tryGetObjectName widgetSpecNode = inr None.
Proof. reflexivity. Qed.

(** A node with two listed triples is classified by the first. *)
Lemma tryGetObjectName_classifies_witness :
  schemaNode widgetNode = true /\
  tryGetObjectName widgetNode = inr (Some widgetGvk).
Proof.
  split; [reflexivity |].
  apply (proj1 (proj2 (tryGetObjectName_classifies widgetNode eq_refl)) widgetGvk).
  split; [exists [legacyGvk]; reflexivity | reflexivity].
Defined.

(** The parser of the spec on keys of the Kubernetes schema. *)
Example parseApiTypeName_spec_versioned :
  parseApiTypeName_spec "io.k8s.api.apps.v1beta1.Deployment" =
  inr (TypeName.mk "io.k8s.api.apps.v1beta1.Deployment" "Deployment"
                   (Some "io.k8s.api.apps")
                   (Some (TypeName.mkVersion "v1beta1"))).
Proof. reflexivity. Qed.

Example parseApiTypeName_spec_unversioned :
  parseApiTypeName_spec "io.k8s.apimachinery.pkg.util.intstr.IntOrString" =
  inr (TypeName.mk "io.k8s.apimachinery.pkg.util.intstr.IntOrString"
                   "IntOrString" None None).
Proof. reflexivity. Qed.

Example parseApiTypeName_spec_malformed :
  parseApiTypeName_spec "io.k8s.api.apps.v1beta.Deployment" =
  inl (newError "InvalidIdentifierFormat: io.k8s.api.apps.v1beta.Deployment").
Proof. reflexivity. Qed.

(** The parser of the spec names an identifier by its key. *)
Lemma parseApiTypeName_spec_fullname (typename : string) (type : TypeName.t) :
  parseApiTypeName_spec typename = inr type -> TypeName.fullname type = typename.
Proof.
  unfold parseApiTypeName_spec.
  destruct (major ← literal "v" _; oneOrMore isDigit major) as [afterMajor |];
    [| intros [= <-]; reflexivity].
  destruct (_ || _); [intros [= <-]; reflexivity | discriminate].
Qed.

(** C6, as the code has it.  The scan pushes at most one descriptor for an
    entry of the definition map, in the order of the entries; when the
    parser names an identifier by its key, the keys of the descriptors are
    keys of the map, and no two descriptors have the same key.  (The
    identity triple is copied from the annotation, and two keys may carry
    the same one.) *)
Theorem findApiObjectDefinitions_one_per_key
        (parseApiTypeName : string -> Outcome TypeName.t)
        (schema : JSON) (prefix : string) (todo : list (string * JSON))
        (objs : list ApiObject.t) :
  (forall typename type,
      parseApiTypeName typename = inr type -> TypeName.fullname type = typename) ->
  definitionEntries schema = inr todo ->
  NoDup (map fst todo) ->
  findApiObjectDefinitions parseApiTypeName schema prefix = inr objs ->
  sublist (map ApiObject.fqn objs) (map fst todo) /\
  NoDup (map ApiObject.fqn objs).
Proof.
  intros Hname Htodo Hkeys. unfold findApiObjectDefinitions.
  rewrite Htodo. run. intros Hscan.
  destruct (scanEntries_pushed _ _ _ _ _ Hscan)
    as (pushed & -> & _ & keys & Hsub & Hpushed).
  assert (map ApiObject.fqn pushed = keys) as Hfqn.
  { clear -Hpushed Hname.
    induction Hpushed as [| o k pushed keys (type & Hp & Hfqn & _) _ IH]; [reflexivity |].
    cbn [map]. rewrite Hfqn, (Hname _ _ Hp), IH. reflexivity. }
  cbn [app]. rewrite Hfqn. split; [assumption |].
  eapply sublist_NoDup; eassumption.
Qed.


(** Two keys that carry the same accepted node give two descriptors with
    the same identity triple, whatever the parser, provided it finds a
    version in both keys. *)
Lemma scanEntries_twins
      (parseApiTypeName : string -> Outcome TypeName.t) (prefix : string)
      (key1 key2 : string) (node objectName : JSON)
      (type1 type2 : TypeName.t) (v1 v2 : TypeName.Version) :
  tryGetObjectName node = inr (Some objectName) ->
  parseApiTypeName key1 = inr type1 -> TypeName.version type1 = Some v1 ->
  parseApiTypeName key2 = inr type2 -> TypeName.version type2 = Some v2 ->
  scanEntries parseApiTypeName prefix [(key1, node); (key2, node)] [] =
  inr [descriptor prefix type1 objectName node;
       descriptor prefix type2 objectName node] /\
  identity (descriptor prefix type1 objectName node) =
  identity (descriptor prefix type2 objectName node).
Proof.
  intros Hc Hp1 Hv1 Hp2 Hv2. split; [| reflexivity].
  cbn [scanEntries].
  rewrite (scanEntry_push _ _ _ _ _ _ _ _ Hc Hp1 Hv1). run.
  rewrite (scanEntry_push _ _ _ _ _ _ _ _ Hc Hp2 Hv2). reflexivity.
Qed.

(** C6 fails on the code: two keys that carry the same annotation give two
    descriptors with the same identity triple. *)
Lemma findApiObjectDefinitions_shared_identity :
  exists objs,
    findApiObjectDefinitions parseApiTypeName_spec twinSchema "Kube" = inr objs /\
    ~ identityIsUnique objs.
Proof.
  eexists. split; [vm_compute; reflexivity |].
  intros Huniq.
  specialize (Huniq _ _ (or_introl eq_refl) (or_intror (or_introl eq_refl)) eq_refl).
  discriminate Huniq.
Qed.

(** ** The matcher *)

Lemma splitAt_not_nil (isSep : ascii -> bool) (s : string) : splitAt isSep s <> [].
Proof.
  destruct s as [| c rest]; cbn; [discriminate |].
  destruct (isSep c); [discriminate |].
  destruct (splitAt isSep rest); discriminate.
Qed.

(** A text that does not hold the separator is one segment. *)
Lemma split_one_segment (sep : ascii) (s : string) :
  occurs sep s = false -> split sep s = [s].
Proof.
  unfold split. induction s as [| c rest IH]; cbn; [reflexivity |].
  destruct (Ascii.eqb c sep); cbn; [discriminate |].
  intros H. rewrite (IH H). reflexivity.
Qed.

Lemma prefix_append (p s : string) :
  String.prefix p s = true -> exists rest, s = p +:+ rest.
Proof.
  revert s. induction p as [| a p IH]; intros s; cbn.
  - exists s. reflexivity.
  - destruct s as [| b s]; cbn; [discriminate |].
    destruct (ascii_dec a b) as [<- |]; [| discriminate].
    intros H. destruct (IH _ H) as [rest ->]. exists rest. reflexivity.
Qed.

Lemma prefix_of_append (p rest : string) : String.prefix p (p +:+ rest) = true.
Proof.
  induction p as [| a p IH].
  - destruct rest; reflexivity.
  - change (String a p +:+ rest) with (String a (p +:+ rest)).
    cbn [String.prefix]. destruct (ascii_dec a a); [exact IH | congruence].
Qed.

(** There is a second segment exactly when the text holds the separator. *)
Lemma split_second_segment (sep : ascii) (s : string) :
  nth_error (split sep s) 1 = None <-> occurs sep s = false.
Proof.
  unfold split. induction s as [| c rest IH]; cbn [splitAt occurs].
  - split; reflexivity.
  - destruct (Ascii.eqb c sep); cbn [orb].
    + cbn [nth_error].
      destruct (splitAt (fun c0 => Ascii.eqb c0 sep) rest) eqn:E;
        [exfalso; exact (splitAt_not_nil _ _ E) |].
      split; discriminate.
    + destruct (splitAt (fun c0 => Ascii.eqb c0 sep) rest) eqn:E;
        [exfalso; exact (splitAt_not_nil _ _ E) |].
      exact IH.
Qed.

(** The segments of a source of the form [k8s@...]. *)
Lemma split_k8s_at (rest : string) :
  split "@" ("k8s@" +:+ rest) = "k8s" :: split "@" rest.
Proof. reflexivity. Qed.

Lemma explicitVersion_k8s_at (rest : string) :
  explicitVersion ("k8s@" +:+ rest) = Some (hd EmptyString (split "@" rest)).
Proof.
  unfold explicitVersion. rewrite split_k8s_at. cbn [nth_error].
  destruct (split "@" rest) eqn:E; [| reflexivity].
  exfalso. exact (splitAt_not_nil _ _ E).
Qed.

(** What the matcher does on a source of the form [k8s@...]: it validates
    the first segment of what follows, and throws or returns options. *)
Lemma match_k8s_at (rest : string) (argv : Argv) :
  let v := hd EmptyString (split "@" rest) in
  ImportKubernetesApi.match_ {| source := "k8s@" +:+ rest |} argv =
  if k8sVersionRegex_test v
  then ([ConsoleError ("Importing k8s v" +:+ v +:+ "...")],
        inr (Some {| apiVersion := v; exclude := argvExclude argv |}))
  else ([], inl (versionFormatError v)).
Proof.
  intros v. unfold ImportKubernetesApi.match_. cbn [source].
  change (String.eqb ("k8s@" +:+ rest) "k8s") with false.
  rewrite prefix_of_append.
  cbn [negb andb]. unfold selectedVersion.
  rewrite explicitVersion_k8s_at. fold v.
  destruct (k8sVersionRegex_test v); reflexivity.
Qed.

(** The matcher throws before it calls anything, and the error tells the
    version that fails the format. *)
Lemma match_throws_first (importSpec : ImportSpec) (argv : Argv) (e : JsError) :
  snd (ImportKubernetesApi.match_ importSpec argv) = inl e ->
  ImportKubernetesApi.match_ importSpec argv =
  ([], inl (versionFormatError (selectedVersion (source importSpec)))) /\
  k8sVersionRegex_test (selectedVersion (source importSpec)) = false.
Proof.
  unfold ImportKubernetesApi.match_.
  destruct (negb _ && negb _); [discriminate |].
  destruct (k8sVersionRegex_test _); [discriminate |].
  intros _. split; reflexivity.
Qed.

(** A version suffix that holds no further [@] and fails the format makes
    the matcher throw, before any call. *)
Lemma match_rejects_malformed_suffix (suffix : string) (argv : Argv) :
  occurs "@" suffix = false ->
  k8sVersionRegex_test suffix = false ->
  ImportKubernetesApi.match_ {| source := "k8s@" +:+ suffix |} argv =
  ([], inl (versionFormatError suffix)).
Proof.
  intros Hat Hbad. rewrite match_k8s_at.
  rewrite (split_one_segment _ _ Hat). cbn [hd]. rewrite Hbad. reflexivity.
Qed.

(** C7 fails on the code at a suffix that holds a second [@]: the suffix
    [1.2.3@x] fails the format, and the matcher returns options for the
    version [1.2.3] without an error. *)
Lemma match_accepts_second_separator (argv : Argv) :
  k8sFamily "k8s@1.2.3@x" = true /\
  versionSuffix "k8s@1.2.3@x" = Some "1.2.3@x" /\
  k8sVersionRegex_test "1.2.3@x" = false /\
  ImportKubernetesApi.match_ {| source := "k8s@1.2.3@x" |} argv =
  ([ConsoleError "Importing k8s v1.2.3..."],
   inr (Some {| apiVersion := "1.2.3"; exclude := argvExclude argv |})).
Proof. repeat split; reflexivity. Qed.


(** ** The download step *)

(** C8.  When the retrieval fails, the download step prints the hint that
    tells where the available schemas are listed, and throws the failure of
    the retrieval as it is: no schema is returned and nothing else is tried.
    When the document is retrieved and its parsing fails, the step throws an
    error whose message holds the URL of the document. *)
Theorem downloadSchema_failures
        (download : string -> Outcome string)
        (safeParseJsonSchema : string -> Outcome JSON)
        (apiVersion : string) :
  let url := schemaUrl apiVersion in
  (forall e,
      download url = inl e ->
      downloadSchema download safeParseJsonSchema apiVersion =
      ([Download url; ConsoleError (schemaNotFoundHint apiVersion)], inl e)) /\
  schemaNotFoundHint apiVersion =
  "Could not find a schema for k8s version " +:+ apiVersion +:+
  ". The current list of available schemas is at " +:+
  "https://github.com/cdk8s-team/cdk8s/tree/master/kubernetes-schemas" +:+ "." /\
  (forall output e,
      download url = inr output ->
      safeParseJsonSchema output = inl e ->
      downloadSchema download safeParseJsonSchema apiVersion =
      ([Download url; SafeParseJsonSchema output],
       inl (newError ("Unable to parse schema at " +:+ url +:+ ": " +:+
                      errorToString e)))) /\
  (forall output schema,
      download url = inr output ->
      safeParseJsonSchema output = inr schema ->
      downloadSchema download safeParseJsonSchema apiVersion =
      ([Download url; SafeParseJsonSchema output], inr schema)).
Proof.
  intros url. unfold downloadSchema. fold url.
  split; [| split; [| split]].
  - intros e He. rewrite He. reflexivity.
  - unfold schemaNotFoundHint. do 2 f_equal.
  - intros output e Hd Hp. rewrite Hd. cbn. rewrite Hp. reflexivity.
  - intros output schema Hd Hp. rewrite Hd. cbn. rewrite Hp. reflexivity.
Qed.

(** A retrieval that fails with a network error, and a document that is not
    a schema. *)
Lemma downloadSchema_failures_witness :
  downloadSchema (fun _ => inl (newError "getaddrinfo ENOTFOUND"))
                 (fun _ => inr JNull) "9.9.9" =
  ([Download (schemaUrl "9.9.9"); ConsoleError (schemaNotFoundHint "9.9.9")],
   inl (newError "getaddrinfo ENOTFOUND")) /\
  downloadSchema (fun _ => inr "<html>")
                 (fun _ => inl (mkError "SyntaxError" "Unexpected token <"))
                 "1.25.0" =
  ([Download (schemaUrl "1.25.0"); SafeParseJsonSchema "<html>"],
   inl (newError
          ("Unable to parse schema at " +:+ schemaUrl "1.25.0" +:+
           ": SyntaxError: Unexpected token <"))).
Proof.
  split.
  - apply (proj1 (downloadSchema_failures
                    (fun _ => inl (newError "getaddrinfo ENOTFOUND"))
                    (fun _ => inr JNull) "9.9.9")).
    reflexivity.
  - exact (proj1 (proj2 (proj2 (downloadSchema_failures
                    (fun _ => inr "<html>")
                    (fun _ => inl (mkError "SyntaxError" "Unexpected token <"))
                    "1.25.0")))
                 "<html>" (mkError "SyntaxError" "Unexpected token <")
                 eq_refl eq_refl).
Defined.


(** ** The generation pipeline *)

Section GenerateFacts.

Variable getPropsTypeName : ApiObject.t -> string.
Variable Emitted : Type.
Variable generateConstruct :
  TypeGenerator.t Emitted -> ApiObject.t -> Outcome (TypeGenerator.t Emitted).

Implicit Types (g : TypeGenerator.t Emitted) (objs : list ApiObject.t).

(** The first loop never throws: it makes one call for each descriptor, in
    order, and leaves the engine with every key rewritten. *)
Lemma rewriteDefinitions_run g objs :
  rewriteDefinitions getPropsTypeName g objs =
  (map (rewriteOf getPropsTypeName) objs, inr (rewritten getPropsTypeName g objs)).
Proof.
  unfold rewriteDefinitions, rewritten. revert g.
  induction objs as [| o objs IH]; intros g; [reflexivity |].
  cbn [forEach fold_left map]. trun. rewrite IH. reflexivity.
Qed.

(** Rewriting leaves alone the keys of no descriptor. *)
Lemma rewritten_other g objs (key : string) :
  ~ In key (map ApiObject.fqn objs) ->
  TypeGenerator.definitions (rewritten getPropsTypeName g objs) !! key =
  TypeGenerator.definitions g !! key.
Proof.
  unfold rewritten. revert g.
  induction objs as [| o objs IH]; intros g Hout; [reflexivity |].
  cbn [fold_left]. rewrite IH.
  - cbn [TypeGenerator.addDefinition TypeGenerator.definitions].
    apply lookup_insert_ne. intros Heq. apply Hout. left. exact Heq.
  - intros Hin. apply Hout. right. exact Hin.
Qed.

(** The key of a descriptor holds the reference to the properties type of
    the descriptor, when no other descriptor has the same key. *)
Lemma rewritten_lookup g objs o :
  NoDup (map ApiObject.fqn objs) ->
  In o objs ->
  TypeGenerator.definitions (rewritten getPropsTypeName g objs) !! ApiObject.fqn o =
  Some (propsRef getPropsTypeName o).
Proof.
  revert g. induction objs as [| o' objs IH]; intros g Hnd Hin; [destruct Hin |].
  cbn [map] in Hnd. apply NoDup_cons in Hnd as [Hfresh Hnd].
  destruct Hin as [-> | Hin].
  - change (rewritten getPropsTypeName g (o :: objs))
      with (rewritten getPropsTypeName
              (TypeGenerator.addDefinition g (ApiObject.fqn o)
                                           (propsRef getPropsTypeName o)) objs).
    rewrite rewritten_other.
    + cbn [TypeGenerator.addDefinition TypeGenerator.definitions].
      apply lookup_insert_eq.
    + intros Hin. apply Hfresh. apply list_elem_of_In. exact Hin.
  - change (rewritten getPropsTypeName g (o' :: objs))
      with (rewritten getPropsTypeName
              (TypeGenerator.addDefinition g (ApiObject.fqn o')
                                           (propsRef getPropsTypeName o')) objs).
    now apply IH.
Qed.

(** The second loop calls [generateConstruct] only, on descriptors of the
    list. *)
Lemma emitConstructs_trace g objs :
  Forall (fun ev => exists o, ev = GenerateConstruct o /\ In o objs)
         (fst (emitConstructs generateConstruct g objs)).
Proof.
  unfold emitConstructs. revert g.
  induction objs as [| o objs IH]; intros g; [constructor |].
  cbn [forEach]. trun.
  destruct (generateConstruct g o) as [e | g'].
  - constructor; [| constructor]. exists o. split; [reflexivity | now left].
  - specialize (IH g'). destruct (forEach _ g' objs) as [t r].
    constructor.
    + exists o. split; [reflexivity | now left].
    + cbn [fst] in IH. eapply Forall_impl; [exact IH |].
      intros ev (o' & -> & Hin). exists o'. split; [reflexivity | now right].
Qed.

End GenerateFacts.

(** Where an element occurs in a list made of two parts, when the first
    part does not hold it. *)
Lemma split_past {A : Type} (first second before after : list A) (x : A) :
  first ++ second = before ++ x :: after ->
  ~ In x first ->
  exists mid, before = first ++ mid /\ second = mid ++ x :: after.
Proof.
  revert before. induction first as [| a first IH]; intros before Heq Hout.
  - exists before. split; [reflexivity | exact Heq].
  - destruct before as [| b before]; cbn in Heq.
    + injection Heq as -> _. exfalso. apply Hout. now left.
    + injection Heq as <- Heq.
      destruct (IH before Heq) as (mid & -> & ->).
      * intros Hin. apply Hout. now right.
      * exists mid. split; reflexivity.
Qed.

(** The download step calls the network, the parser and the console. *)
Lemma downloadSchema_trace download safeParseJsonSchema apiVersion :
  Forall (fun ev => isAddDefinition ev = false /\ isGenerateConstruct ev = false)
         (fst (downloadSchema download safeParseJsonSchema apiVersion)).
Proof.
  unfold downloadSchema.
  destruct (download (schemaUrl apiVersion)) as [e | output]; cbn.
  - repeat constructor.
  - destruct (safeParseJsonSchema output); cbn; repeat constructor.
Qed.

(** The entries of a schema whose [definitions] is an object. *)
Lemma definitionEntries_object (schema : JSON) (fields : list (string * JSON)) :
  getProp (Some schema) "definitions" = inr (Some (JObj fields)) ->
  definitionEntries schema = inr fields.
Proof. intros H. unfold definitionEntries. rewrite H. reflexivity. Qed.

(** What a scan that returns has found, when the parser names an
    identifier by its key: descriptors of entries of the map, with keys that
    differ. *)
Lemma findApiObjectDefinitions_found
      (parseApiTypeName : string -> Outcome TypeName.t)
      (schema : JSON) (prefix : string) (todo : list (string * JSON))
      (objs : list ApiObject.t) :
  (forall typename type,
      parseApiTypeName typename = inr type -> TypeName.fullname type = typename) ->
  definitionEntries schema = inr todo ->
  NoDup (map fst todo) ->
  findApiObjectDefinitions parseApiTypeName schema prefix = inr objs ->
  NoDup (map ApiObject.fqn objs) /\
  Forall (fun o => In (ApiObject.fqn o, ApiObject.schema o) todo /\
                   ApiObject.prefix o = prefix) objs.
Proof.
  intros Hname Htodo Hkeys. unfold findApiObjectDefinitions.
  rewrite Htodo. run. intros Hscan.
  destruct (scanEntries_pushed _ _ _ _ _ Hscan)
    as (pushed & -> & Hprefix & keys & Hsub & Hpushed).
  cbn [app].
  assert (map ApiObject.fqn pushed = keys /\
          Forall (fun o => In (ApiObject.fqn o, ApiObject.schema o) todo) pushed)
    as [Hfqn Hin].
  { clear -Hpushed Hname.
    induction Hpushed as [| o k pushed keys (type & Hp & Hfqn & Hin) _ [IH1 IH2]];
      [split; [reflexivity | constructor] |].
    rewrite (Hname _ _ Hp) in Hfqn. split.
    - cbn [map]. rewrite Hfqn, IH1. reflexivity.
    - constructor; [rewrite Hfqn; exact Hin | exact IH2]. }
  split.
  - rewrite Hfqn. eapply sublist_NoDup; eassumption.
  - rewrite Forall_forall in *. intros o Ho. split.
    + exact (Hin _ Ho).
    + exact (proj1 (Hprefix _ Ho)).
Qed.


(** The shape of the trace of a run that reaches the loops: the calls of
    the download step, the rewrites, the calls of [generateConstruct], and
    the calls that end the run. *)
Lemma barrier_in_trace (getPropsTypeName : ApiObject.t -> string)
      (io gen tail before after : list Event)
      (objs : list ApiObject.t) (o : ApiObject.t) :
  io ++ map (rewriteOf getPropsTypeName) objs ++ gen ++ tail
  = before ++ GenerateConstruct o :: after ->
  Forall (fun ev => isAddDefinition ev = false /\ isGenerateConstruct ev = false) io ->
  Forall (fun ev => exists o', ev = GenerateConstruct o' /\ In o' objs) gen ->
  Forall (fun ev => isAddDefinition ev = false /\ isGenerateConstruct ev = false) tail ->
  In o objs /\
  (forall o', In o' objs -> In (rewriteOf getPropsTypeName o') before) /\
  (forall ev, In ev after -> isAddDefinition ev = false).
Proof.
  intros Heq Hio Hgen Htail.
  rewrite Forall_forall in Hio, Hgen, Htail.
  rewrite app_assoc in Heq.
  destruct (split_past _ _ _ _ _ Heq) as (mid & -> & Hrest).
  { intros Hin. apply in_app_or in Hin as [Hin | Hin].
    - destruct (Hio _ (proj2 (list_elem_of_In _ _) Hin)); discriminate.
    - apply in_map_iff in Hin as (o' & Hev & _). discriminate Hev. }
  assert (forall ev, In ev (gen ++ tail) ->
                     (exists o', ev = GenerateConstruct o' /\ In o' objs) \/
                     (isAddDefinition ev = false /\ isGenerateConstruct ev = false))
    as Hlate.
  { intros ev Hin. apply in_app_or in Hin as [Hin | Hin].
    - left. apply Hgen, list_elem_of_In, Hin.
    - right. apply Htail, list_elem_of_In, Hin. }
  rewrite Hrest in Hlate. split; [| split].
  - destruct (Hlate (GenerateConstruct o)) as [(o' & [= <-] & Hin) | [_ Hno]].
    + apply in_elt.
    + exact Hin.
    + discriminate Hno.
  - intros o' Hin. apply in_or_app. left. apply in_or_app. right.
    apply in_map. exact Hin.
  - intros ev Hin.
    destruct (Hlate ev) as [(o' & -> & _) | [Hno _]].
    + apply in_or_app. right. right. exact Hin.
    + reflexivity.
    + exact Hno.
Qed.

(** C4.  In a run of the pipeline, when [generateConstruct] is called, the
    key of every descriptor of the scan has been rewritten by a call made
    before, and no key is rewritten afterwards: the second loop starts when
    the first has ended. *)
Theorem generateTypeScript_barrier
        (download : string -> Outcome string)
        (safeParseJsonSchema : string -> Outcome JSON)
        (parseApiTypeName : string -> Outcome TypeName.t)
        (getTypeName : bool -> string -> string -> string)
        (getPropsTypeName : ApiObject.t -> string)
        (Emitted : Type) (nothing : Emitted)
        (generateConstruct :
           TypeGenerator.t Emitted -> ApiObject.t -> Outcome (TypeGenerator.t Emitted))
        (render : TypeGenerator.t Emitted -> Outcome string)
        (this : ImportKubernetesApiOptions) (moduleName : string)
        (options : GenerateOptions)
        (before after : list Event) (o : ApiObject.t) :
  fst (generateTypeScript download safeParseJsonSchema parseApiTypeName
                          getTypeName getPropsTypeName nothing
                          generateConstruct render this moduleName options)
  = before ++ GenerateConstruct o :: after ->
  exists schema objs,
    snd (downloadSchema download safeParseJsonSchema (apiVersion this)) = inr schema /\
    findApiObjectDefinitions parseApiTypeName schema (prefixOf options) = inr objs /\
    In o objs /\
    (forall o', In o' objs -> In (rewriteOf getPropsTypeName o') before) /\
    (forall ev, In ev after -> isAddDefinition ev = false).
Proof.
  unfold generateTypeScript.
  pose proof (downloadSchema_trace download safeParseJsonSchema (apiVersion this)) as Hio.
  destruct (downloadSchema download safeParseJsonSchema (apiVersion this))
    as [io [e | schema]]; cbn [fst snd] in *; trun.
  all: assert (~ In (GenerateConstruct o) io) as Hnot
      by (intros Hin; rewrite Forall_forall in Hio;
          destruct (Hio _ (proj2 (list_elem_of_In _ _) Hin)); discriminate).
  { intros Heq. exfalso. apply Hnot. rewrite Heq. apply in_elt. }
  destruct (negb (String.eqb moduleName "k8s")); trun.
  { rewrite app_nil_r. intros Heq. exfalso. apply Hnot. rewrite Heq. apply in_elt. }
  destruct (findApiObjectDefinitions parseApiTypeName schema (prefixOf options))
    as [e | objs] eqn:Hscan; trun.
  { rewrite app_nil_r. intros Heq. exfalso. apply Hnot. rewrite Heq. apply in_elt. }
  destruct (getProp (Some schema) "definitions") as [e | definitions]; trun.
  { rewrite !app_nil_r. intros Heq. exfalso. apply Hnot. rewrite Heq. apply in_elt. }
  rewrite rewriteDefinitions_run. trun.
  set (graph := rewritten getPropsTypeName _ objs).
  pose proof (emitConstructs_trace _ generateConstruct graph objs) as Hgen.
  destruct (emitConstructs generateConstruct graph objs) as [gen r].
  cbn [fst] in Hgen. intros Heq.
  exists schema, objs. split; [reflexivity |]. split; [exact Hscan |].
  destruct r as [e | graph']; trun; cbn [mbind traced_bind fst app] in Heq.
  - apply (barrier_in_trace getPropsTypeName io gen [] before after objs o);
      [rewrite app_nil_r; exact Heq | exact Hio | exact Hgen | constructor].
  - destruct (render graph') as [e | text]; cbn [fst app] in Heq.
    + apply (barrier_in_trace getPropsTypeName io gen [EmitHeader false; Render]
                              before after objs o);
        [exact Heq | exact Hio | exact Hgen | repeat constructor].
    + apply (barrier_in_trace getPropsTypeName io gen
                              [EmitHeader false; Render; CodeLine text]
                              before after objs o);
        [exact Heq | exact Hio | exact Hgen | repeat constructor].
Qed.

(** A run on a graph of two API objects: both keys are rewritten before the
    first construct is generated. *)
Lemma generateTypeScript_barrier_witness :
  let before :=
    [Download (schemaUrl "1.25.0"); SafeParseJsonSchema "{}";
     rewriteOf getPropsTypeName_spec twinA; rewriteOf getPropsTypeName_spec twinB] in
  let after :=
    [GenerateConstruct twinB; EmitHeader false; Render; CodeLine "// generated"] in
  fst (sampleRun twinSchema) = before ++ GenerateConstruct twinA :: after /\
  In (rewriteOf getPropsTypeName_spec twinB) before.
Proof.
  intros before after.
  assert (fst (sampleRun twinSchema) = before ++ GenerateConstruct twinA :: after)
    as Hrun by (vm_compute; reflexivity).
  split; [exact Hrun |]. unfold sampleRun in Hrun.
  destruct (generateTypeScript_barrier _ _ _ _ _ _ _ _ _ _ _ _ _ _ _ Hrun)
    as (schema & objs & Hschema & Hobjs & _ & Hbefore & _).
  injection Hschema as <-.
  apply Hbefore.
  assert (findApiObjectDefinitions parseApiTypeName_spec twinSchema "Kube"
          = inr [twinA; twinB]) as Hscan by reflexivity.
  change (prefixOf {| classNamePrefix := None |}) with "Kube" in Hobjs.
  rewrite Hscan in Hobjs. injection Hobjs as <-. right. left. reflexivity.
Defined.

(** ** Derived names *)

Lemma append_cons (c : ascii) (s1 s2 : string) :
  String c s1 +:+ s2 = String c (s1 +:+ s2).
Proof. reflexivity. Qed.

Lemma length_append (s1 s2 : string) :
  String.length (s1 +:+ s2) = String.length s1 + String.length s2.
Proof.
  induction s1 as [| c s1 IH]; [reflexivity |].
  rewrite append_cons. cbn [String.length]. now rewrite IH.
Qed.


(** A text is not itself followed by a text that is not empty. *)
Lemma append_grows (s tail : string) :
  String.length tail <> 0 -> s <> s +:+ tail.
Proof.
  intros Hlen Heq. apply (f_equal String.length) in Heq.
  rewrite length_append in Heq. lia.
Qed.

Lemma append_inj_r (s1 s2 tail : string) :
  s1 +:+ tail = s2 +:+ tail -> s1 = s2.
Proof.
  revert s2. induction s1 as [| c s1 IH]; intros [| c' s2] Heq.
  - reflexivity.
  - exfalso. apply (f_equal String.length) in Heq.
    change (EmptyString +:+ tail) with tail in Heq.
    rewrite length_append in Heq. cbn [String.length] in Heq. lia.
  - exfalso. apply (f_equal String.length) in Heq.
    change (EmptyString +:+ tail) with tail in Heq.
    rewrite length_append in Heq. cbn [String.length] in Heq. lia.
  - rewrite !append_cons in Heq. injection Heq as -> Heq. f_equal. now apply IH.
Qed.

(** The wrapper name and the properties name of a descriptor differ. *)
Lemma wrapper_is_not_props (o : ApiObject.t) :
  getConstructTypeName_spec o <> getPropsTypeName_spec o.
Proof. unfold getPropsTypeName_spec. apply append_grows. cbn. lia. Qed.



(** * Further properties *)

(** ** The format of a version *)

Lemma skipWhile_split (p : ascii -> bool) (s : string) :
  exists run, s = run +:+ skipWhile p s /\ allIn p run = true.
Proof.
  induction s as [| c rest (run & Hrest & Hrun)]; cbn [skipWhile].
  - exists EmptyString. split; reflexivity.
  - destruct (p c) eqn:Hc.
    + exists (String c run). rewrite append_cons, <- Hrest. cbn [allIn].
      rewrite Hc, Hrun. split; reflexivity.
    + exists EmptyString. split; reflexivity.
Qed.

Lemma skipWhile_stop (p : ascii -> bool) (run : string) (c : ascii) (rest : string) :
  allIn p run = true -> p c = false ->
  skipWhile p (run +:+ String c rest) = String c rest.
Proof.
  intros Hrun Hc. induction run as [| d run IH].
  - change (EmptyString +:+ String c rest) with (String c rest).
    cbn [skipWhile]. now rewrite Hc.
  - rewrite append_cons. cbn [skipWhile allIn] in *.
    apply andb_prop in Hrun as [-> Hrun]. auto.
Qed.

Lemma skipWhile_all (p : ascii -> bool) (run : string) :
  allIn p run = true -> skipWhile p run = EmptyString.
Proof.
  induction run as [| d run IH]; cbn [skipWhile allIn]; [reflexivity |].
  intros Hrun. apply andb_prop in Hrun as [-> Hrun]. auto.
Qed.

(** What [p+] consumes is a run of the class that is not empty. *)
Lemma oneOrMore_inv (p : ascii -> bool) (s rest : string) :
  oneOrMore p s = Some rest ->
  exists run, s = run +:+ rest /\ run <> EmptyString /\ allIn p run = true.
Proof.
  destruct s as [| c s]; cbn [oneOrMore]; [discriminate |].
  destruct (p c) eqn:Hc; [| discriminate]. intros [= <-].
  destruct (skipWhile_split p s) as (run & Hs & Hrun).
  exists (String c run). rewrite append_cons, <- Hs. cbn [allIn].
  rewrite Hc, Hrun. repeat split. discriminate.
Qed.

Lemma oneOrMore_stop (p : ascii -> bool) (run : string) (c : ascii) (rest : string) :
  run <> EmptyString -> allIn p run = true -> p c = false ->
  oneOrMore p (run +:+ String c rest) = Some (String c rest).
Proof.
  destruct run as [| d run]; [congruence |]. intros _ Hrun Hc.
  rewrite append_cons. cbn [oneOrMore allIn] in *.
  apply andb_prop in Hrun as [-> Hrun]. now rewrite skipWhile_stop.
Qed.

Lemma oneOrMore_all (p : ascii -> bool) (run : string) :
  run <> EmptyString -> allIn p run = true -> oneOrMore p run = Some EmptyString.
Proof.
  destruct run as [| d run]; [congruence |]. intros _ Hrun.
  cbn [oneOrMore allIn] in *.
  apply andb_prop in Hrun as [-> Hrun]. now rewrite skipWhile_all.
Qed.

Lemma literal_inv (c : ascii) (s rest : string) :
  literal c s = Some rest -> s = String c rest.
Proof.
  destruct s as [| d s]; cbn [literal]; [discriminate |].
  destruct (Ascii.eqb d c) eqn:E; [| discriminate].
  apply Ascii.eqb_eq in E. now intros [= <-]; subst.
Qed.

Lemma digitRun_spec (s : string) :
  digitRun s = true <-> s <> EmptyString /\ allIn isDigit s = true.
Proof.
  unfold digitRun. destruct s as [| c s]; cbn [String.eqb negb andb].
  - split; [discriminate | intros [H _]; congruence].
  - split; [intros H; split; [discriminate | exact H] | intros [_ H]; exact H].
Qed.

(** A version that passes the format is made of three decimal numbers
    separated by dots. *)
Lemma k8sVersionRegex_test_inv (k8sVersion : string) :
  k8sVersionRegex_test k8sVersion = true ->
  exists major minor patch,
    k8sVersion = major +:+ "." +:+ minor +:+ "." +:+ patch /\
    digitRun major = true /\ digitRun minor = true /\ digitRun patch = true.
Proof.
  unfold k8sVersionRegex_test.
  destruct (oneOrMore isDigit k8sVersion) as [r1 |] eqn:E1; cbn; [| discriminate].
  destruct (literal "." r1) as [r2 |] eqn:E2; cbn; [| discriminate].
  destruct (oneOrMore isDigit r2) as [r3 |] eqn:E3; cbn; [| discriminate].
  destruct (literal "." r3) as [r4 |] eqn:E4; cbn; [| discriminate].
  destruct (oneOrMore isDigit r4) as [r5 |] eqn:E5; cbn; [| discriminate].
  destruct r5; [| discriminate]. intros _.
  apply oneOrMore_inv in E1 as (major & -> & Hm1 & Hm2).
  apply literal_inv in E2 as ->.
  apply oneOrMore_inv in E3 as (minor & -> & Hn1 & Hn2).
  apply literal_inv in E4 as ->.
  apply oneOrMore_inv in E5 as (patch & -> & Hp1 & Hp2).
  exists major, minor, patch.
  split; [| repeat split; apply digitRun_spec; split; assumption].
  f_equal. change ("." +:+ minor +:+ "." +:+ patch)
    with (String "." (minor +:+ String "." patch)).
  f_equal. f_equal. f_equal. f_equal.
  clear. induction patch as [| c patch IH]; [reflexivity |].
  rewrite append_cons. f_equal. exact IH.
Qed.

(** X1.  The versions that the format accepts are the texts made of three
    decimal numbers separated by dots, and nothing else. *)
Theorem k8sVersionRegex_test_spec (k8sVersion : string) :
  k8sVersionRegex_test k8sVersion = true <->
  exists major minor patch,
    k8sVersion = major +:+ "." +:+ minor +:+ "." +:+ patch /\
    digitRun major = true /\ digitRun minor = true /\ digitRun patch = true.
Proof.
  split; [apply k8sVersionRegex_test_inv |].
  unfold k8sVersionRegex_test.
  intros (major & minor & patch & -> & Hmajor & Hminor & Hpatch).
  apply digitRun_spec in Hmajor as [Hm1 Hm2].
  apply digitRun_spec in Hminor as [Hn1 Hn2].
  apply digitRun_spec in Hpatch as [Hp1 Hp2].
  change ("." +:+ minor +:+ "." +:+ patch)
    with (String "." (minor +:+ String "." patch)).
  rewrite (oneOrMore_stop isDigit major "." _ Hm1 Hm2 eq_refl). cbn.
  rewrite (oneOrMore_stop isDigit minor "." _ Hn1 Hn2 eq_refl). cbn.
  rewrite (oneOrMore_all isDigit patch Hp1 Hp2). reflexivity.
Qed.

(** ** The matcher *)

(** X2.  The matcher answers [undefined] exactly to the sources that are neither
    [k8s] nor start with [k8s@], and it then calls nothing; to any other
    source it answers with options or throws. *)
Theorem match_undefined_iff (importSpec : ImportSpec) (argv : Argv) :
  (snd (ImportKubernetesApi.match_ importSpec argv) = inr None <->
   k8sFamily (source importSpec) = false) /\
  (k8sFamily (source importSpec) = false ->
   ImportKubernetesApi.match_ importSpec argv = ([], inr None)).
Proof.
  unfold ImportKubernetesApi.match_, k8sFamily.
  destruct (String.eqb (source importSpec) "k8s");
    destruct (String.prefix "k8s@" (source importSpec)); cbn [negb andb orb].
  4: { repeat split. }
  all: split; [| discriminate].
  all: destruct (k8sVersionRegex_test _); cbn; split; discriminate.
Qed.

(** X3.  The options that the matcher returns hold a version that passes the
    format, which is the text between the first and the second [@] of the
    source or the default, and the exclusion list of the command line; the
    matcher has then printed one line, which tells the version. *)
Theorem match_returns_valid_version
        (importSpec : ImportSpec) (argv : Argv)
        (options : ImportKubernetesApiOptions) :
  snd (ImportKubernetesApi.match_ importSpec argv) = inr (Some options) ->
  k8sFamily (source importSpec) = true /\
  apiVersion options = selectedVersion (source importSpec) /\
  k8sVersionRegex_test (apiVersion options) = true /\
  exclude options = argvExclude argv /\
  fst (ImportKubernetesApi.match_ importSpec argv) =
  [ConsoleError ("Importing k8s v" +:+ apiVersion options +:+ "...")].
Proof.
  unfold ImportKubernetesApi.match_, k8sFamily.
  destruct (String.eqb (source importSpec) "k8s");
    destruct (String.prefix "k8s@" (source importSpec)); cbn [negb andb orb].
  4: discriminate.
  all: destruct (k8sVersionRegex_test (selectedVersion (source importSpec))) eqn:Hok;
    cbn; [| discriminate]; intros [= <-]; cbn; repeat split; exact Hok.
Qed.

Lemma match_returns_valid_version_witness :
  k8sVersionRegex_test "1.22.0" = true /\
  fst (ImportKubernetesApi.match_ {| source := "k8s@1.22.0" |}
                                  {| argvExclude := Some ["io.k8s.Foo"] |}) =
  [ConsoleError "Importing k8s v1.22.0..."].
Proof.
  destruct (match_returns_valid_version
              {| source := "k8s@1.22.0" |} {| argvExclude := Some ["io.k8s.Foo"] |}
              {| apiVersion := "1.22.0"; exclude := Some ["io.k8s.Foo"] |} eq_refl)
    as (_ & _ & Hok & _ & Hlog).
  split; [exact Hok | exact Hlog].
Defined.

(** The first segment of a text that starts with a run without the
    separator, followed by the separator. *)
Lemma split_first_segment (sep : ascii) (first rest : string) :
  occurs sep first = false ->
  split sep (first +:+ String sep rest) = first :: split sep rest.
Proof.
  unfold split. induction first as [| c first IH]; intros Hfree.
  - change (EmptyString +:+ String sep rest) with (String sep rest).
    cbn [splitAt]. now rewrite Ascii.eqb_refl.
  - rewrite append_cons. cbn [splitAt occurs] in *.
    apply orb_false_elim in Hfree as [-> Hfree]. now rewrite (IH Hfree).
Qed.

(** X4.  The matcher reads the text between the first and the second [@] only:
    what follows a second [@] changes nothing to what it does. *)
Theorem match_ignores_second_separator (version ignored : string) (argv : Argv) :
  occurs "@" version = false ->
  ImportKubernetesApi.match_ {| source := "k8s@" +:+ version +:+ "@" +:+ ignored |} argv =
  ImportKubernetesApi.match_ {| source := "k8s@" +:+ version |} argv.
Proof.
  intros Hfree. rewrite !match_k8s_at.
  change (version +:+ "@" +:+ ignored) with (version +:+ String "@" ignored).
  rewrite (split_first_segment _ _ _ Hfree), (split_one_segment _ _ Hfree).
  reflexivity.
Qed.

Lemma match_ignores_second_separator_witness :
  ImportKubernetesApi.match_ {| source := "k8s@1.22.0@latest" |} {| argvExclude := None |} =
  ImportKubernetesApi.match_ {| source := "k8s@1.22.0" |} {| argvExclude := None |}.
Proof.
  exact (match_ignores_second_separator "1.22.0" "latest" {| argvExclude := None |} eq_refl).
Defined.

Lemma allIn_app (p : ascii -> bool) (s1 s2 : string) :
  allIn p (s1 +:+ s2) = allIn p s1 && allIn p s2.
Proof.
  induction s1 as [| c s1 IH]; [reflexivity |].
  rewrite append_cons. cbn [allIn]. now rewrite IH, andb_assoc.
Qed.

Lemma allIn_weaken (p q : ascii -> bool) (s : string) :
  (forall c, p c = true -> q c = true) -> allIn p s = true -> allIn q s = true.
Proof.
  intros Hpq. induction s as [| c s IH]; cbn [allIn]; [reflexivity |].
  intros H. apply andb_prop in H as [Hc Hs]. now rewrite (Hpq _ Hc), IH.
Qed.

(** X5.  The version that the matcher returns, which the download step places in
    the address of the schema, is made of digits and dots only: it holds no
    [/], no [@] and no blank. *)
Theorem match_version_is_plain
        (importSpec : ImportSpec) (argv : Argv)
        (options : ImportKubernetesApiOptions) :
  snd (ImportKubernetesApi.match_ importSpec argv) = inr (Some options) ->
  allIn isVersionChar (apiVersion options) = true /\
  occurs "/" (apiVersion options) = false /\
  occurs "@" (apiVersion options) = false /\
  occurs " " (apiVersion options) = false.
Proof.
  intros Hmatch.
  assert (k8sVersionRegex_test (apiVersion options) = true) as Hok.
  { revert Hmatch. unfold ImportKubernetesApi.match_.
    destruct (negb _ && negb _); [discriminate |].
    destruct (k8sVersionRegex_test (selectedVersion (source importSpec))) eqn:Hok;
      cbn; [| discriminate].
    intros [= <-]. exact Hok. }
  apply k8sVersionRegex_test_inv in Hok
    as (major & minor & patch & -> & Hmajor & Hminor & Hpatch).
  apply digitRun_spec in Hmajor as [_ Hmajor].
  apply digitRun_spec in Hminor as [_ Hminor].
  apply digitRun_spec in Hpatch as [_ Hpatch].
  assert (forall c, isDigit c = true -> isVersionChar c = true) as Hdigit
      by (intros c Hc; unfold isVersionChar; now rewrite Hc).
  assert (allIn isVersionChar (major +:+ "." +:+ minor +:+ "." +:+ patch) = true)
    as Hplain.
  { rewrite !allIn_app.
    rewrite (allIn_weaken _ _ _ Hdigit Hmajor), (allIn_weaken _ _ _ Hdigit Hminor),
      (allIn_weaken _ _ _ Hdigit Hpatch). reflexivity. }
  split; [exact Hplain |].
  assert (forall c s, isVersionChar c = false -> allIn isVersionChar s = true ->
                      occurs c s = false) as Hfree.
  { intros c s Hc. induction s as [| d s IH]; cbn [allIn occurs]; [reflexivity |].
    intros H. apply andb_prop in H as [Hd Hs]. rewrite (IH Hs), orb_false_r.
    destruct (Ascii.eqb d c) eqn:E; [| reflexivity].
    apply Ascii.eqb_eq in E. congruence. }
  repeat split; apply Hfree; try exact Hplain; reflexivity.
Qed.

Lemma match_version_is_plain_witness :
  occurs "/" "1.22.0" = false.
Proof.
  exact (proj1 (proj2 (match_version_is_plain
                  {| source := "k8s@1.22.0" |} {| argvExclude := None |}
                  {| apiVersion := "1.22.0"; exclude := None |} eq_refl))).
Defined.

(** ** The classifier and the scan *)

(** X6.  The classifier returns on every value that is not [null], whatever its
    shape, and throws on [null]. *)
Theorem tryGetObjectName_throws_iff_null (def : JSON) :
  (exists e, tryGetObjectName def = inl e) <-> def = JNull.
Proof.
  split.
  - intros [e He].
    assert (def = JNull \/ def <> JNull) as [Hnull | Hnull]
        by (destruct def; [left; reflexivity | right; discriminate ..]).
    + exact Hnull.
    + destruct (tryGetObjectName_returns def Hnull) as [r Hr]. congruence.
  - intros ->. eexists. reflexivity.
Qed.

(** X7.  A schema object that has no [definitions], or whose [definitions] is
    [null], [false], zero or the empty text, has no API object: the scan
    returns the empty list, for every parser. *)
Theorem findApiObjectDefinitions_no_definitions
        (parseApiTypeName : string -> Outcome TypeName.t)
        (fields : list (string * JSON)) (prefix : string) :
  truthy (assoc "definitions" fields) = false ->
  findApiObjectDefinitions parseApiTypeName (JObj fields) prefix = inr [].
Proof.
  intros Hfalsy. unfold findApiObjectDefinitions, definitionEntries.
  cbn [getProp]. run. rewrite Hfalsy. reflexivity.
Qed.

Lemma findApiObjectDefinitions_no_definitions_witness :
  findApiObjectDefinitions parseApiTypeName_spec
                           (JObj [("swagger", JStr "2.0"); ("definitions", JNull)])
                           "Kube" = inr [].
Proof.
  exact (findApiObjectDefinitions_no_definitions
           parseApiTypeName_spec
           [("swagger", JStr "2.0"); ("definitions", JNull)] "Kube" eq_refl).
Defined.

Section ScanMore.

Variable parseApiTypeName : string -> Outcome TypeName.t.

(** What a turn of the loop pushes is what [describe] tells. *)
Lemma scanEntry_describe prefix result entry result' :
  scanEntry parseApiTypeName prefix result entry = inr result' ->
  result' = result ++ option_list (describe parseApiTypeName prefix entry).
Proof.
  destruct entry as [k node]. unfold describe. cbn [fst snd].
  destruct (scanEntry_turn parseApiTypeName prefix result k node)
    as [e | Hnone | o type v Ho Hp Hsome].
  - discriminate.
  - intros [= <-]. rewrite Hnone. cbn. now rewrite app_nil_r.
  - intros [= <-]. rewrite Ho, Hp, Hsome. reflexivity.
Qed.

Lemma scanEntries_describe prefix todo result objs :
  scanEntries parseApiTypeName prefix todo result = inr objs ->
  objs = result ++ omap (describe parseApiTypeName prefix) todo.
Proof.
  revert result. induction todo as [| entry rest IH]; intros result.
  - intros [= <-]. cbn. now rewrite app_nil_r.
  - cbn [scanEntries].
    destruct (scanEntry parseApiTypeName prefix result entry) as [e | result'] eqn:E;
      run; [discriminate |].
    intros H. rewrite (IH _ H), (scanEntry_describe _ _ _ _ E), <- app_assoc.
    f_equal. cbn [omap list_omap].
    destruct (describe parseApiTypeName prefix entry); reflexivity.
Qed.

(** A turn of the loop returns on an entry whose node is not [null] and
    whose key, if the node is accepted, has a version. *)
Lemma scanEntry_returns prefix result typename apischema :
  apischema <> JNull ->
  (accepted apischema -> parsedVersion parseApiTypeName typename <> None) ->
  exists result',
    scanEntry parseApiTypeName prefix result (typename, apischema) = inr result'.
Proof.
  intros Hnull Hversion.
  destruct (tryGetObjectName_returns _ Hnull) as [[o |] Hc].
  - specialize (Hversion (ex_intro _ o Hc)). unfold parsedVersion in Hversion.
    destruct (parseApiTypeName typename) as [e | type] eqn:Hp; [congruence |].
    destruct (TypeName.version type) as [v |] eqn:Hv; [| congruence].
    eexists. exact (scanEntry_push _ _ _ _ _ _ _ _ Hc Hp Hv).
  - exists result. unfold scanEntry. rewrite Hc. reflexivity.
Qed.

Lemma scanEntries_returns prefix todo result :
  (forall typename apischema,
      In (typename, apischema) todo ->
      apischema <> JNull /\
      (accepted apischema -> parsedVersion parseApiTypeName typename <> None)) ->
  exists objs, scanEntries parseApiTypeName prefix todo result = inr objs.
Proof.
  revert result. induction todo as [| [k node] rest IH]; intros result Hall.
  - eexists. reflexivity.
  - cbn [scanEntries].
    destruct (Hall k node (or_introl eq_refl)) as [Hnull Hversion].
    destruct (scanEntry_returns prefix result k node Hnull Hversion) as [result' ->].
    run. apply IH. intros k' node' Hin. apply Hall. now right.
Qed.

(** A turn of the loop does not depend on the descriptors pushed before. *)
Lemma scanEntry_from_empty prefix entry result :
  scanEntry parseApiTypeName prefix result entry =
  match scanEntry parseApiTypeName prefix [] entry with
  | inl e => inl e
  | inr pushed => inr (result ++ pushed)
  end.
Proof.
  destruct entry as [k node]. unfold scanEntry.
  destruct (tryGetObjectName node) as [e | objectName]; run; [reflexivity |].
  destruct (truthy objectName); run; [| now rewrite app_nil_r].
  destruct (parseApiTypeName k) as [e | type]; run; [reflexivity |].
  destruct (TypeName.version type); [| reflexivity].
  destruct (getProp objectName "group"); run; [reflexivity |].
  destruct (getProp objectName "kind"); run; [reflexivity |].
  destruct (getProp objectName "version"); run; reflexivity.
Qed.

Lemma scanEntries_from_empty prefix todo result :
  scanEntries parseApiTypeName prefix todo result =
  match scanEntries parseApiTypeName prefix todo [] with
  | inl e => inl e
  | inr pushed => inr (result ++ pushed)
  end.
Proof.
  revert result. induction todo as [| entry rest IH]; intros result.
  - cbn. now rewrite app_nil_r.
  - cbn [scanEntries]. rewrite (scanEntry_from_empty prefix entry result).
    destruct (scanEntry parseApiTypeName prefix [] entry) as [e | first]; run;
      [reflexivity |].
    rewrite (IH (result ++ first)), (IH first).
    destruct (scanEntries parseApiTypeName prefix rest []); [reflexivity |].
    now rewrite app_assoc.
Qed.

End ScanMore.

Lemma definitionEntries_schemaOf (definitions : list (string * JSON)) :
  definitionEntries (schemaOf definitions) = inr definitions.
Proof. reflexivity. Qed.

(** X8.  The descriptors that a scan returns are those of the entries that the
    classifier accepts, one for each, in the order of the entries: each
    holds the name that the parser gives to the key, the group, kind and
    version of the first entry of the annotation, the node itself, and the
    prefix of the scan. *)
Theorem findApiObjectDefinitions_describes
        (parseApiTypeName : string -> Outcome TypeName.t)
        (schema : JSON) (prefix : string) (objs : list ApiObject.t) :
  findApiObjectDefinitions parseApiTypeName schema prefix = inr objs ->
  exists todo,
    definitionEntries schema = inr todo /\
    objs = omap (describe parseApiTypeName prefix) todo.
Proof.
  unfold findApiObjectDefinitions.
  destruct (definitionEntries schema) as [e | todo]; run; [discriminate |].
  intros Hscan. exists todo. split; [reflexivity |].
  exact (scanEntries_describe _ _ _ _ _ Hscan).
Qed.

Lemma findApiObjectDefinitions_describes_witness :
  exists todo,
    definitionEntries pairSchema = inr todo /\
    map ApiObject.fqn (omap (describe parseApiTypeName_spec "Kube") todo) =
    ["grp/v1.Widget"; "grp/v1.Gadget"].
Proof.
  destruct (findApiObjectDefinitions_describes
              parseApiTypeName_spec pairSchema "Kube" _ eq_refl)
    as (todo & Htodo & Hobjs).
  exists todo. split; [exact Htodo |]. rewrite <- Hobjs. reflexivity.
Defined.

(** X9.  The scan returns when no node of the definition map is [null] and the
    parser finds a version in the key of every node that the classifier
    accepts; it then returns the descriptors of the accepted entries. *)
Theorem findApiObjectDefinitions_returns
        (parseApiTypeName : string -> Outcome TypeName.t)
        (schema : JSON) (prefix : string) (todo : list (string * JSON)) :
  definitionEntries schema = inr todo ->
  (forall typename apischema,
      In (typename, apischema) todo ->
      apischema <> JNull /\
      (accepted apischema -> parsedVersion parseApiTypeName typename <> None)) ->
  findApiObjectDefinitions parseApiTypeName schema prefix =
  inr (omap (describe parseApiTypeName prefix) todo).
Proof.
  intros Htodo Hall. unfold findApiObjectDefinitions. rewrite Htodo. run.
  destruct (scanEntries_returns parseApiTypeName prefix todo [] Hall) as [objs Hobjs].
  rewrite Hobjs. f_equal. exact (scanEntries_describe _ _ _ _ _ Hobjs).
Qed.

Lemma findApiObjectDefinitions_returns_witness :
  exists o, findApiObjectDefinitions parseApiTypeName_spec widgetSchema "Kube" = inr [o].
Proof.
  eexists.
  rewrite (findApiObjectDefinitions_returns
             parseApiTypeName_spec widgetSchema "Kube"
             [("grp/v1.Widget", widgetNode); ("grp/v1.WidgetSpec", widgetSpecNode)]
             eq_refl).
  - reflexivity.
  - intros typename apischema [[= <- <-] | [[= <- <-] | []]];
      (split; [discriminate |]).
    + intros _. discriminate.
    + intros [objectName Hc]. discriminate Hc.
Defined.

(** X10.  The scan consults the parser for the keys of the nodes that the
    classifier accepts, and for no other key: two parsers that agree on
    those keys give the same scan. *)
Theorem findApiObjectDefinitions_parser_agreement
        (parse1 parse2 : string -> Outcome TypeName.t)
        (schema : JSON) (prefix : string) (todo : list (string * JSON)) :
  definitionEntries schema = inr todo ->
  (forall typename apischema,
      In (typename, apischema) todo -> accepted apischema ->
      parse1 typename = parse2 typename) ->
  findApiObjectDefinitions parse1 schema prefix =
  findApiObjectDefinitions parse2 schema prefix.
Proof.
  intros Htodo Hagree. unfold findApiObjectDefinitions. rewrite Htodo. run.
  clear Htodo. revert Hagree. generalize (@nil ApiObject.t) as result.
  induction todo as [| [k node] rest IH]; intros result Hagree; [reflexivity |].
  cbn [scanEntries].
  assert (scanEntry parse1 prefix result (k, node) =
          scanEntry parse2 prefix result (k, node)) as ->.
  { unfold scanEntry.
    destruct (tryGetObjectName node) as [e | objectName] eqn:Hc; run; [reflexivity |].
    destruct (truthy objectName) eqn:Ht; run; [| reflexivity].
    destruct objectName as [o |]; [| discriminate Ht].
    rewrite (Hagree k node (or_introl eq_refl) (ex_intro _ o Hc)). reflexivity. }
  destruct (scanEntry parse2 prefix result (k, node)); run; [reflexivity |].
  apply IH. intros k' node' Hin. apply Hagree. now right.
Qed.

(** A parser that always throws is as good as any on a graph without an
    API object. *)
Lemma findApiObjectDefinitions_parser_agreement_witness :
  findApiObjectDefinitions (fun _ => inl (newError "never called"))
                           (schemaOf [("grp/v1.WidgetSpec", widgetSpecNode);
                                      ("meta/v1.DeleteOptions", deleteOptionsNode)])
                           "Kube" =
  findApiObjectDefinitions parseApiTypeName_spec
                           (schemaOf [("grp/v1.WidgetSpec", widgetSpecNode);
                                      ("meta/v1.DeleteOptions", deleteOptionsNode)])
                           "Kube".
Proof.
  apply (findApiObjectDefinitions_parser_agreement
           (fun _ => inl (newError "never called")) parseApiTypeName_spec
           (schemaOf [("grp/v1.WidgetSpec", widgetSpecNode);
                      ("meta/v1.DeleteOptions", deleteOptionsNode)])
           "Kube"
           [("grp/v1.WidgetSpec", widgetSpecNode);
            ("meta/v1.DeleteOptions", deleteOptionsNode)] eq_refl).
  intros typename apischema [[= <- <-] | [[= <- <-] | []]] [objectName Hc];
    discriminate Hc.
Defined.

(** X11.  The scan of a definition map made of two parts is the scan of the
    first part followed by the scan of the second: an error in the first
    part is the error of the whole, and otherwise the descriptors of the
    first part come before those of the second. *)
Theorem findApiObjectDefinitions_app
        (parseApiTypeName : string -> Outcome TypeName.t)
        (before after : list (string * JSON)) (prefix : string) :
  findApiObjectDefinitions parseApiTypeName (schemaOf (before ++ after)) prefix =
  match findApiObjectDefinitions parseApiTypeName (schemaOf before) prefix with
  | inl e => inl e
  | inr first =>
    match findApiObjectDefinitions parseApiTypeName (schemaOf after) prefix with
    | inl e => inl e
    | inr second => inr (first ++ second)
    end
  end.
Proof.
  unfold findApiObjectDefinitions. rewrite !definitionEntries_schemaOf. run.
  rewrite scanEntries_app.
  destruct (scanEntries parseApiTypeName prefix before []) as [e | first]; run;
    [reflexivity |].
  apply scanEntries_from_empty.
Qed.

(** X12.  The error of a scan names the first key that is at fault: when the
    entries before an accepted entry are scanned without error, the scan
    throws what the parser throws on the key of the entry, or, when the
    parser returns without a version, the error that tells the key. *)
Theorem findApiObjectDefinitions_first_error
        (parseApiTypeName : string -> Outcome TypeName.t)
        (before rest : list (string * JSON)) (typename : string)
        (apischema : JSON) (prefix : string) (kept : list ApiObject.t) :
  findApiObjectDefinitions parseApiTypeName (schemaOf before) prefix = inr kept ->
  accepted apischema ->
  let whole := schemaOf (before ++ (typename, apischema) :: rest) in
  (forall e,
      parseApiTypeName typename = inl e ->
      findApiObjectDefinitions parseApiTypeName whole prefix = inl e) /\
  (forall type,
      parseApiTypeName typename = inr type ->
      TypeName.version type = None ->
      findApiObjectDefinitions parseApiTypeName whole prefix =
      inl (newError ("Unable to parse version for type: " +:+ typename))).
Proof.
  intros Hbefore [objectName Hc] whole. subst whole.
  unfold findApiObjectDefinitions in *.
  rewrite definitionEntries_schemaOf in *. run. cbn [mbind outcome_bind] in Hbefore.
  rewrite scanEntries_app, Hbefore. run.
  cbn [scanEntries]. split.
  - intros e Hp. unfold scanEntry. rewrite Hc. run.
    destruct (tryGetObjectName_truthy _ _ Hc) as [? | Ht]; [discriminate |].
    rewrite Ht. run. rewrite Hp. reflexivity.
  - intros type Hp Hv.
    rewrite (scanEntry_no_version _ _ _ _ _ _ _ Hc Hp Hv). reflexivity.
Qed.


Lemma findApiObjectDefinitions_first_error_witness :
  findApiObjectDefinitions
    parseApiTypeName_spec
    (schemaOf ([("grp/v1.Widget", widgetNode)] ++
               ("grp.v1beta.Gadget", gadgetNode) :: [("Gizmo", widgetNode)]))
    "Kube" =
  inl (newError "InvalidIdentifierFormat: grp.v1beta.Gadget").
Proof.
  apply (proj1 (findApiObjectDefinitions_first_error
                  parseApiTypeName_spec [("grp/v1.Widget", widgetNode)]
                  [("Gizmo", widgetNode)] "grp.v1beta.Gadget" gadgetNode "Kube"
                  [twinA] eq_refl (ex_intro _ gadgetGvk eq_refl))).
  reflexivity.
Defined.

(** ** The rewrite of the graph *)

Section RewriteMore.

Variable getPropsTypeName : ApiObject.t -> string.
Variable Emitted : Type.

Implicit Types (g : TypeGenerator.t Emitted) (objs : list ApiObject.t).

Lemma rewritten_cons g o objs :
  rewritten getPropsTypeName g (o :: objs) =
  rewritten getPropsTypeName
            (TypeGenerator.addDefinition g (ApiObject.fqn o)
                                         (propsRef getPropsTypeName o)) objs.
Proof. reflexivity. Qed.

Lemma rewritten_dom g objs :
  dom (TypeGenerator.definitions (rewritten getPropsTypeName g objs)) =
  dom (TypeGenerator.definitions g) ∪ keysOf objs.
Proof.
  revert g. induction objs as [| o objs IH]; intros g.
  - unfold keysOf. cbn. set_solver.
  - rewrite rewritten_cons, IH.
    cbn [TypeGenerator.addDefinition TypeGenerator.definitions].
    rewrite dom_insert_L. unfold keysOf. cbn [map list_to_set]. set_solver.
Qed.

Lemma rewritten_engine g objs :
  TypeGenerator.excluded (rewritten getPropsTypeName g objs) = TypeGenerator.excluded g /\
  TypeGenerator.renderTypeName (rewritten getPropsTypeName g objs) =
  TypeGenerator.renderTypeName g /\
  TypeGenerator.emitted (rewritten getPropsTypeName g objs) = TypeGenerator.emitted g.
Proof.
  revert g. induction objs as [| o objs IH]; intros g; [repeat split |].
  rewrite rewritten_cons. destruct (IH (TypeGenerator.addDefinition g (ApiObject.fqn o)
                                          (propsRef getPropsTypeName o)))
    as (-> & -> & ->). repeat split.
Qed.

End RewriteMore.

(** The keys of the descriptors of a scan are keys of the definition map,
    when the parser names an identifier by its key. *)
Lemma findApiObjectDefinitions_keys
      (parseApiTypeName : string -> Outcome TypeName.t)
      (schema : JSON) (prefix : string) (todo : list (string * JSON))
      (objs : list ApiObject.t) :
  (forall typename type,
      parseApiTypeName typename = inr type -> TypeName.fullname type = typename) ->
  definitionEntries schema = inr todo ->
  findApiObjectDefinitions parseApiTypeName schema prefix = inr objs ->
  forall o, In o objs -> In (ApiObject.fqn o) (map fst todo).
Proof.
  intros Hname Htodo. unfold findApiObjectDefinitions. rewrite Htodo. run.
  intros Hscan.
  destruct (scanEntries_pushed _ _ _ _ _ Hscan) as (pushed & -> & _ & keys & _ & Hpushed).
  cbn [app]. clear Hscan.
  induction Hpushed as [| d k pushed keys (type & Hp & Hfqn & Hin) _ IH];
    intros o Ho; [destruct Ho |].
  destruct Ho as [<- | Ho]; [| exact (IH o Ho)].
  rewrite Hfqn, (Hname _ _ Hp). apply in_map_iff. exists (k, ApiObject.schema d).
  split; [reflexivity | exact Hin].
Qed.

(** X13.  The rewrite of the pipeline adds no key to the graph and removes none,
    and it leaves the exclusion list and the naming function of the engine
    as they were given. *)
Theorem rewriteDefinitions_keeps_keys
        (parseApiTypeName : string -> Outcome TypeName.t)
        (getPropsTypeName : ApiObject.t -> string)
        (Emitted : Type) (nothing : Emitted)
        (excluded : option (list string)) (render : string -> Outcome string)
        (schema : JSON) (prefix : string) (todo : list (string * JSON))
        (objs : list ApiObject.t) :
  (forall typename type,
      parseApiTypeName typename = inr type -> TypeName.fullname type = typename) ->
  getProp (Some schema) "definitions" = inr (Some (JObj todo)) ->
  findApiObjectDefinitions parseApiTypeName schema prefix = inr objs ->
  let graph := TypeGenerator.new (Some (JObj todo)) excluded render nothing in
  exists graph',
    snd (rewriteDefinitions getPropsTypeName graph objs) = inr graph' /\
    dom (TypeGenerator.definitions graph') = dom (TypeGenerator.definitions graph) /\
    TypeGenerator.excluded graph' = excluded /\
    TypeGenerator.renderTypeName graph' = render.
Proof.
  intros Hname Hdefs Hscan graph.
  exists (rewritten getPropsTypeName graph objs).
  rewrite rewriteDefinitions_run. split; [reflexivity |].
  destruct (rewritten_engine getPropsTypeName Emitted graph objs) as (-> & -> & _).
  split; [| split; reflexivity].
  rewrite rewritten_dom.
  assert (keysOf objs ⊆ dom (TypeGenerator.definitions graph)); [| set_solver].
  intros key Hkey. unfold keysOf in Hkey.
  apply elem_of_list_to_set, list_elem_of_In, in_map_iff in Hkey as (o & <- & Ho).
  subst graph. cbn [TypeGenerator.new TypeGenerator.definitions].
  rewrite dom_list_to_map_L. apply elem_of_list_to_set, list_elem_of_In.
  exact (findApiObjectDefinitions_keys
           _ _ _ _ _ Hname (definitionEntries_object _ _ Hdefs) Hscan o Ho).
Qed.

Lemma rewriteDefinitions_keeps_keys_witness :
  exists graph',
    snd (rewriteDefinitions
           getPropsTypeName_spec
           (TypeGenerator.new (fieldOf (Some twinSchema) "definitions")
                              (Some ["grp/v1.WidgetSpec"]) (fun key => inr key) tt)
           [twinA; twinB]) = inr graph' /\
    dom (TypeGenerator.definitions graph') =
    ({[ "grp/v1.Widget"; "other/v1.Widget" ]} : gset string) /\
    TypeGenerator.excluded graph' = Some ["grp/v1.WidgetSpec"].
Proof.
  destruct (rewriteDefinitions_keeps_keys
              parseApiTypeName_spec getPropsTypeName_spec unit tt
              (Some ["grp/v1.WidgetSpec"]) (fun key => inr key)
              twinSchema "Kube"
              [("grp/v1.Widget", widgetNode); ("other/v1.Widget", widgetNode)]
              [twinA; twinB]
              parseApiTypeName_spec_fullname eq_refl eq_refl)
    as (graph' & Hrun & Hdom & Hexcluded & _).
  exists graph'. split; [exact Hrun |]. split; [| exact Hexcluded].
  rewrite Hdom. cbn [TypeGenerator.new TypeGenerator.definitions].
  rewrite dom_list_to_map_L. cbn. set_solver.
Defined.

(** ** Runs of the pipeline *)

(** A module name is expected exactly when it is [k8s]. *)
Lemma moduleNames_k8s (moduleName : string) :
  In moduleName moduleNames <-> String.eqb moduleName "k8s" = true.
Proof.
  unfold moduleNames. rewrite String.eqb_eq. split.
  - intros [<- | []]. reflexivity.
  - intros ->. now left.
Qed.

(** A scan that returns has read [definitions] from a schema that is not
    [null]. *)
Lemma findApiObjectDefinitions_reads_definitions
      (parseApiTypeName : string -> Outcome TypeName.t)
      (schema : JSON) (prefix : string) (objs : list ApiObject.t) :
  findApiObjectDefinitions parseApiTypeName schema prefix = inr objs ->
  getProp (Some schema) "definitions" = inr (fieldOf (Some schema) "definitions").
Proof.
  unfold findApiObjectDefinitions, definitionEntries.
  destruct schema; cbn; try reflexivity. discriminate.
Qed.

Section RunMore.

Variable download : string -> Outcome string.
Variable safeParseJsonSchema : string -> Outcome JSON.
Variable parseApiTypeName : string -> Outcome TypeName.t.
Variable getTypeName : bool -> string -> string -> string.
Variable getPropsTypeName : ApiObject.t -> string.
Variable Emitted : Type.
Variable nothing : Emitted.
Variable generateConstruct :
  TypeGenerator.t Emitted -> ApiObject.t -> Outcome (TypeGenerator.t Emitted).
Variable render : TypeGenerator.t Emitted -> Outcome string.

(** The second loop, when it ends without an error, has called
    [generateConstruct] once for each descriptor, in order. *)
Lemma emitConstructs_all (g g' : TypeGenerator.t Emitted) (objs : list ApiObject.t) :
  snd (emitConstructs generateConstruct g objs) = inr g' ->
  fst (emitConstructs generateConstruct g objs) = map GenerateConstruct objs.
Proof.
  unfold emitConstructs. revert g.
  induction objs as [| o objs IH]; intros g; [reflexivity |].
  cbn [forEach map]. trun.
  destruct (generateConstruct g o) as [e | g1]; [discriminate |].
  specialize (IH g1). destruct (forEach _ g1 objs) as [t r].
  cbn [fst snd] in *. intros Hr. now rewrite (IH Hr).
Qed.

Lemma downloadSchema_steps (apiVersion : string) :
  Forall (fun ev => isDownloadStep ev = true)
         (fst (downloadSchema download safeParseJsonSchema apiVersion)).
Proof.
  unfold downloadSchema.
  destruct (download (schemaUrl apiVersion)) as [e | output]; cbn.
  - repeat constructor.
  - destruct (safeParseJsonSchema output); cbn; repeat constructor.
Qed.

End RunMore.

(** X14.  The errors that end a run before the graph is touched, in the order in
    which the pipeline meets them: the failure of the download step, whatever
    the module name; then the module name that is not expected, whatever the
    schema; then the error of the scan.  In each case the run has made the
    calls of the download step and no other. *)
Theorem generateTypeScript_early_errors
        (download : string -> Outcome string)
        (safeParseJsonSchema : string -> Outcome JSON)
        (parseApiTypeName : string -> Outcome TypeName.t)
        (getTypeName : bool -> string -> string -> string)
        (getPropsTypeName : ApiObject.t -> string)
        (Emitted : Type) (nothing : Emitted)
        (generateConstruct :
           TypeGenerator.t Emitted -> ApiObject.t -> Outcome (TypeGenerator.t Emitted))
        (render : TypeGenerator.t Emitted -> Outcome string)
        (this : ImportKubernetesApiOptions) (moduleName : string)
        (options : GenerateOptions) :
  let fetched := downloadSchema download safeParseJsonSchema (apiVersion this) in
  let run := generateTypeScript download safeParseJsonSchema parseApiTypeName
                                getTypeName getPropsTypeName nothing
                                generateConstruct render this moduleName options in
  (forall e, snd fetched = inl e -> run = (fst fetched, inl e)) /\
  (forall schema,
      snd fetched = inr schema ->
      ~ In moduleName moduleNames ->
      run = (fst fetched, inl (unexpectedModuleName moduleName))) /\
  (forall schema e,
      snd fetched = inr schema ->
      In moduleName moduleNames ->
      findApiObjectDefinitions parseApiTypeName schema (prefixOf options) = inl e ->
      run = (fst fetched, inl e)).
Proof.
  intros fetched run. subst run. unfold generateTypeScript. fold fetched.
  destruct fetched as [io [e0 | schema0]]; cbn [fst snd]; trun.
  - split; [intros e [= <-]; reflexivity |]. split; intros; discriminate.
  - split; [intros; discriminate |]. split.
    + intros schema [= <-] Hname.
      destruct (String.eqb moduleName "k8s") eqn:E.
      * exfalso. apply Hname, moduleNames_k8s, E.
      * trun. rewrite app_nil_r. reflexivity.
    + intros schema e [= <-] Hname Hscan.
      apply moduleNames_k8s in Hname. rewrite Hname. trun. rewrite Hscan. trun.
      rewrite app_nil_r. reflexivity.
Qed.

(** A run that finds no schema for the version, asked for a module that is
    not expected: the failure of the download comes first. *)
Lemma generateTypeScript_early_errors_witness :
  generateTypeScript (fun _ => inl (newError "404")) (fun _ => inr JNull)
                     parseApiTypeName_spec (fun _ kind version => kind +:+ version)
                     getPropsTypeName_spec tt idleConstruct idleRender
                     {| apiVersion := "9.9.9"; exclude := None |}
                     "crds" {| classNamePrefix := None |} =
  ([Download (schemaUrl "9.9.9"); ConsoleError (schemaNotFoundHint "9.9.9")],
   inl (newError "404")) /\
  generateTypeScript (fun _ => inr "{}") (fun _ => inr brokenSchema)
                     parseApiTypeName_spec (fun _ kind version => kind +:+ version)
                     getPropsTypeName_spec tt idleConstruct idleRender
                     {| apiVersion := "1.25.0"; exclude := None |}
                     "crds" {| classNamePrefix := None |} =
  ([Download (schemaUrl "1.25.0"); SafeParseJsonSchema "{}"],
   inl (unexpectedModuleName "crds")).
Proof.
  split.
  - exact (proj1 (generateTypeScript_early_errors
                    (fun _ => inl (newError "404")) (fun _ => inr JNull)
                    parseApiTypeName_spec (fun _ kind version => kind +:+ version)
                    getPropsTypeName_spec unit tt idleConstruct idleRender
                    {| apiVersion := "9.9.9"; exclude := None |}
                    "crds" {| classNamePrefix := None |})
                 (newError "404") eq_refl).
  - apply (proj1 (proj2 (generateTypeScript_early_errors
                    (fun _ => inr "{}") (fun _ => inr brokenSchema)
                    parseApiTypeName_spec (fun _ kind version => kind +:+ version)
                    getPropsTypeName_spec unit tt idleConstruct idleRender
                    {| apiVersion := "1.25.0"; exclude := None |}
                    "crds" {| classNamePrefix := None |}))
                 brokenSchema eq_refl).
    intros [Heq | []]. discriminate Heq.
Defined.

(** X15.  A run in which every step succeeds: it calls the download step, rewrites
    the key of every descriptor, generates the construct of every
    descriptor, in the order of the scan, and then emits the header, renders
    and writes the rendered text as one line. *)
Theorem generateTypeScript_full_run
        (download : string -> Outcome string)
        (safeParseJsonSchema : string -> Outcome JSON)
        (parseApiTypeName : string -> Outcome TypeName.t)
        (getTypeName : bool -> string -> string -> string)
        (getPropsTypeName : ApiObject.t -> string)
        (Emitted : Type) (nothing : Emitted)
        (generateConstruct :
           TypeGenerator.t Emitted -> ApiObject.t -> Outcome (TypeGenerator.t Emitted))
        (render : TypeGenerator.t Emitted -> Outcome string)
        (this : ImportKubernetesApiOptions) (moduleName : string)
        (options : GenerateOptions)
        (schema : JSON) (objs : list ApiObject.t)
        (generated : TypeGenerator.t Emitted) (text : string) :
  let fetched := downloadSchema download safeParseJsonSchema (apiVersion this) in
  let graph :=
    rewritten getPropsTypeName
              (TypeGenerator.new (fieldOf (Some schema) "definitions") (exclude this)
                                 (renderTypeName parseApiTypeName getTypeName) nothing)
              objs in
  snd fetched = inr schema ->
  In moduleName moduleNames ->
  findApiObjectDefinitions parseApiTypeName schema (prefixOf options) = inr objs ->
  snd (emitConstructs generateConstruct graph objs) = inr generated ->
  render generated = inr text ->
  generateTypeScript download safeParseJsonSchema parseApiTypeName
                     getTypeName getPropsTypeName nothing
                     generateConstruct render this moduleName options =
  (fst fetched ++ map (rewriteOf getPropsTypeName) objs ++
   map GenerateConstruct objs ++ [EmitHeader false; Render; CodeLine text],
   inr tt).
Proof.
  intros fetched graph Hfetched Hname Hscan Hgen Hrender.
  unfold generateTypeScript. fold fetched.
  destruct fetched as [io r]. cbn [fst snd] in *. subst r. trun.
  apply moduleNames_k8s in Hname. rewrite Hname. trun.
  rewrite Hscan. trun.
  rewrite (findApiObjectDefinitions_reads_definitions _ _ _ _ Hscan). trun.
  rewrite rewriteDefinitions_run. trun. fold graph.
  pose proof (emitConstructs_all _ generateConstruct _ _ _ Hgen) as Htrace.
  destruct (emitConstructs generateConstruct graph objs) as [gen r].
  cbn [fst snd] in *. subst r gen. trun. rewrite Hrender. cbn [app].
  reflexivity.
Qed.

Lemma generateTypeScript_full_run_witness :
  sampleRun pairSchema =
  ([Download (schemaUrl "1.25.0"); SafeParseJsonSchema "{}"] ++
   map (rewriteOf getPropsTypeName_spec)
       (omap (describe parseApiTypeName_spec "Kube")
             [("grp/v1.Widget", widgetNode); ("grp/v1.Gadget", gadgetNode)]) ++
   map GenerateConstruct
       (omap (describe parseApiTypeName_spec "Kube")
             [("grp/v1.Widget", widgetNode); ("grp/v1.Gadget", gadgetNode)]) ++
   [EmitHeader false; Render; CodeLine "// generated"],
   inr tt).
Proof.
  unfold sampleRun.
  apply (generateTypeScript_full_run
           (fun _ => inr "{}") (fun _ => inr pairSchema)
           parseApiTypeName_spec (fun _ kind version => kind +:+ version)
           getPropsTypeName_spec unit tt idleConstruct idleRender
           {| apiVersion := "1.25.0"; exclude := None |}
           "k8s" {| classNamePrefix := None |} pairSchema
           (omap (describe parseApiTypeName_spec "Kube")
                 [("grp/v1.Widget", widgetNode); ("grp/v1.Gadget", gadgetNode)])
           (rewritten getPropsTypeName_spec
              (TypeGenerator.new (fieldOf (Some pairSchema) "definitions") None
                 (renderTypeName parseApiTypeName_spec
                                 (fun _ kind version => kind +:+ version)) tt)
              (omap (describe parseApiTypeName_spec "Kube")
                    [("grp/v1.Widget", widgetNode); ("grp/v1.Gadget", gadgetNode)]))
           "// generated").
  - reflexivity.
  - left. reflexivity.
  - reflexivity.
  - reflexivity.
  - reflexivity.
Defined.


(** The second loop stops at the first descriptor whose construct cannot be
    generated. *)
Lemma emitConstructs_stops
      (Emitted : Type)
      (generateConstruct :
         TypeGenerator.t Emitted -> ApiObject.t -> Outcome (TypeGenerator.t Emitted))
      (g g1 : TypeGenerator.t Emitted) (done later : list ApiObject.t)
      (o : ApiObject.t) (e : JsError) :
  snd (emitConstructs generateConstruct g done) = inr g1 ->
  generateConstruct g1 o = inl e ->
  emitConstructs generateConstruct g (done ++ o :: later) =
  (map GenerateConstruct done ++ [GenerateConstruct o], inl e).
Proof.
  unfold emitConstructs. revert g.
  induction done as [| d done IH]; intros g.
  - cbn [forEach app map]. trun. intros [= <-] Hfail. now rewrite Hfail.
  - cbn [forEach app map]. trun.
    destruct (generateConstruct g d) as [e' | g']; [discriminate |].
    specialize (IH g'). destruct (forEach _ g' done) as [t r].
    cbn [snd] in *. intros Hdone Hfail. rewrite (IH Hdone Hfail). reflexivity.
Qed.

(** X17.  A run in which the construct of a descriptor cannot be generated: the
    keys of all the descriptors have been rewritten, the constructs of the
    descriptors before it have been generated, those of the descriptors
    after it are not, and the run throws the error of the generator without
    emitting the header, rendering or writing anything. *)
Theorem generateTypeScript_construct_failure
        (download : string -> Outcome string)
        (safeParseJsonSchema : string -> Outcome JSON)
        (parseApiTypeName : string -> Outcome TypeName.t)
        (getTypeName : bool -> string -> string -> string)
        (getPropsTypeName : ApiObject.t -> string)
        (Emitted : Type) (nothing : Emitted)
        (generateConstruct :
           TypeGenerator.t Emitted -> ApiObject.t -> Outcome (TypeGenerator.t Emitted))
        (render : TypeGenerator.t Emitted -> Outcome string)
        (this : ImportKubernetesApiOptions) (moduleName : string)
        (options : GenerateOptions)
        (schema : JSON) (done later : list ApiObject.t) (o : ApiObject.t)
        (reached : TypeGenerator.t Emitted) (e : JsError) :
  let fetched := downloadSchema download safeParseJsonSchema (apiVersion this) in
  let objs := done ++ o :: later in
  let graph :=
    rewritten getPropsTypeName
              (TypeGenerator.new (fieldOf (Some schema) "definitions") (exclude this)
                                 (renderTypeName parseApiTypeName getTypeName) nothing)
              objs in
  snd fetched = inr schema ->
  In moduleName moduleNames ->
  findApiObjectDefinitions parseApiTypeName schema (prefixOf options) = inr objs ->
  snd (emitConstructs generateConstruct graph done) = inr reached ->
  generateConstruct reached o = inl e ->
  generateTypeScript download safeParseJsonSchema parseApiTypeName
                     getTypeName getPropsTypeName nothing
                     generateConstruct render this moduleName options =
  (fst fetched ++ map (rewriteOf getPropsTypeName) objs ++
   map GenerateConstruct done ++ [GenerateConstruct o],
   inl e).
Proof.
  intros fetched objs graph Hfetched Hname Hscan Hdone Hfail.
  unfold generateTypeScript. fold fetched.
  destruct fetched as [io r]. cbn [fst snd] in *. subst r. trun.
  apply moduleNames_k8s in Hname. rewrite Hname. trun.
  rewrite Hscan. trun.
  rewrite (findApiObjectDefinitions_reads_definitions _ _ _ _ Hscan). trun.
  rewrite rewriteDefinitions_run. trun. fold graph. subst objs.
  rewrite (emitConstructs_stops _ _ _ _ _ _ _ _ Hdone Hfail). reflexivity.
Qed.

Lemma generateTypeScript_construct_failure_witness :
  generateTypeScript (fun _ => inr "{}") (fun _ => inr twinSchema)
                     parseApiTypeName_spec (fun _ kind version => kind +:+ version)
                     getPropsTypeName_spec tt
                     (failingConstruct "other/v1.Widget") idleRender
                     {| apiVersion := "1.25.0"; exclude := None |}
                     "k8s" {| classNamePrefix := None |} =
  ([Download (schemaUrl "1.25.0"); SafeParseJsonSchema "{}"] ++
   map (rewriteOf getPropsTypeName_spec) ([twinA] ++ twinB :: []) ++
   map GenerateConstruct [twinA] ++ [GenerateConstruct twinB],
   inl (newError "cannot generate other/v1.Widget")).
Proof.
  apply (generateTypeScript_construct_failure
           (fun _ => inr "{}") (fun _ => inr twinSchema)
           parseApiTypeName_spec (fun _ kind version => kind +:+ version)
           getPropsTypeName_spec unit tt
           (failingConstruct "other/v1.Widget") idleRender
           {| apiVersion := "1.25.0"; exclude := None |}
           "k8s" {| classNamePrefix := None |} twinSchema [twinA] [] twinB
           (rewritten getPropsTypeName_spec
              (TypeGenerator.new (fieldOf (Some twinSchema) "definitions") None
                 (renderTypeName parseApiTypeName_spec
                                 (fun _ kind version => kind +:+ version)) tt)
              ([twinA] ++ twinB :: []))
           (newError "cannot generate other/v1.Widget")).
  - reflexivity.
  - left. reflexivity.
  - reflexivity.
  - reflexivity.
  - reflexivity.
Defined.

(** ** The address of a schema *)

(** X18.  The documents of different versions are fetched from different
    addresses. *)
Theorem schemaUrl_inj (version1 version2 : string) :
  schemaUrl version1 = schemaUrl version2 -> version1 = version2.
Proof.
  unfold schemaUrl. intros Heq.
  apply String.app_inj in Heq. exact (append_inj_r _ _ _ Heq).
Qed.

Lemma schemaUrl_inj_witness :
  DEFAULT_API_VERSION = "1.25.0" /\ schemaUrl "1.25.0" <> schemaUrl "1.22.0".
Proof.
  split.
  - exact (schemaUrl_inj DEFAULT_API_VERSION "1.25.0" eq_refl).
  - intros Heq. apply schemaUrl_inj in Heq. discriminate Heq.
Defined.

(** ** Sample uses *)

Lemma k8sVersionRegex_test_spec_witness :
  k8sVersionRegex_test "1.25.0" = true /\ k8sVersionRegex_test "1.25" = false.
Proof.
  split.
  - apply (proj2 (k8sVersionRegex_test_spec "1.25.0")).
    exists "1", "25", "0". repeat split.
  - reflexivity.
Defined.

Lemma match_undefined_iff_witness :
  ImportKubernetesApi.match_ {| source := "crd.yaml" |} {| argvExclude := None |}
  = ([], inr None).
Proof.
  exact (proj2 (match_undefined_iff {| source := "crd.yaml" |} {| argvExclude := None |})
               eq_refl).
Defined.

Lemma tryGetObjectName_throws_iff_null_witness :
  exists e, tryGetObjectName JNull = inl e.
Proof.
  exact (proj2 (tryGetObjectName_throws_iff_null JNull) eq_refl).
Defined.

Lemma findApiObjectDefinitions_app_witness :
  findApiObjectDefinitions
    parseApiTypeName_spec
    (schemaOf ([("grp/v1.Widget", widgetNode)] ++ [("grp/v1.Gadget", gadgetNode)]))
    "Kube" =
  inr (omap (describe parseApiTypeName_spec "Kube") [("grp/v1.Widget", widgetNode)] ++
       omap (describe parseApiTypeName_spec "Kube") [("grp/v1.Gadget", gadgetNode)]).
Proof.
  rewrite (findApiObjectDefinitions_app
             parseApiTypeName_spec
             [("grp/v1.Widget", widgetNode)] [("grp/v1.Gadget", gadgetNode)] "Kube").
  reflexivity.
Defined.

(** * The scan, the matcher and the pipeline, continued *)

(** A graph of two API objects: the keys of the two descriptors are keys of
    the map, in the order of the map, and they differ. *)
Lemma findApiObjectDefinitions_one_per_key_witness :
  findApiObjectDefinitions parseApiTypeName_spec pairSchema "Kube"
  = inr [pairWidget; pairGadget] /\
  sublist (map ApiObject.fqn [pairWidget; pairGadget])
          ["grp/v1.Widget"; "grp/v1.Gadget"] /\
  NoDup (map ApiObject.fqn [pairWidget; pairGadget]) /\
  ApiObject.fqn pairWidget <> ApiObject.fqn pairGadget.
Proof.
  assert (NoDup (map fst [("grp/v1.Widget", widgetNode);
                          ("grp/v1.Gadget", gadgetNode)])) as Hkeys
    by (apply (bool_decide_unpack _); vm_compute; exact I).
  destruct (findApiObjectDefinitions_one_per_key
              parseApiTypeName_spec pairSchema "Kube"
              [("grp/v1.Widget", widgetNode); ("grp/v1.Gadget", gadgetNode)]
              [pairWidget; pairGadget]
              parseApiTypeName_spec_fullname eq_refl Hkeys eq_refl)
    as [Hsub Hnd].
  split; [reflexivity |]. split; [exact Hsub |]. split; [exact Hnd |].
  cbn [map] in Hnd. apply NoDup_cons in Hnd as [Hfresh _].
  intros Heq. apply Hfresh. rewrite Heq. left.
Defined.

(** C10.  The default version is used only for the source [k8s].  A source
    has no explicit version exactly when it holds no [@], and a source of
    the family has none exactly when it is [k8s]; the source [k8s] is
    imported at the default version.  On a source [k8s@...] the matcher
    validates the text between the first and the second [@] and nothing
    else: it throws the format error for that text or returns it as the
    version, so that the source [k8s@] throws the format error for the empty
    version, and no source that starts with [k8s@] is answered by
    [undefined] or by the default.  The options that the matcher returns
    hold the explicit version of the source whenever there is one. *)
Theorem match_default_only_for_bare_source (argv : Argv) :
  (forall source, explicitVersion source = None <-> occurs "@" source = false) /\
  (forall source,
      k8sFamily source = true ->
      (explicitVersion source = None <-> source = "k8s")) /\
  ImportKubernetesApi.match_ {| source := "k8s" |} argv =
  ([ConsoleError ("Importing k8s v" +:+ DEFAULT_API_VERSION +:+ "...")],
   inr (Some {| apiVersion := DEFAULT_API_VERSION; exclude := argvExclude argv |})) /\
  ImportKubernetesApi.match_ {| source := "k8s@" |} argv =
  ([], inl (versionFormatError "")) /\
  (forall rest,
      (exists e, snd (ImportKubernetesApi.match_ {| source := "k8s@" +:+ rest |} argv) = inl e) \/
      (exists options,
          snd (ImportKubernetesApi.match_ {| source := "k8s@" +:+ rest |} argv)
          = inr (Some options))) /\
  (forall rest,
      let version := hd EmptyString (split "@" rest) in
      ImportKubernetesApi.match_ {| source := "k8s@" +:+ rest |} argv =
      if k8sVersionRegex_test version
      then ([ConsoleError ("Importing k8s v" +:+ version +:+ "...")],
            inr (Some {| apiVersion := version; exclude := argvExclude argv |}))
      else ([], inl (versionFormatError version))) /\
  (forall source options,
      snd (ImportKubernetesApi.match_ {| source := source |} argv) = inr (Some options) ->
      (forall version, explicitVersion source = Some version ->
                       apiVersion options = version) /\
      (explicitVersion source = None ->
       source = "k8s" /\ apiVersion options = DEFAULT_API_VERSION)).
Proof.
  split; [| split; [| split; [reflexivity | split; [reflexivity | split; [| split]]]]].
  - intros source. apply split_second_segment.
  - intros source Hfam. unfold k8sFamily in Hfam.
    apply orb_prop in Hfam as [Heq | Hpre].
    + apply String.eqb_eq in Heq. subst source. split; reflexivity.
    + destruct (prefix_append _ _ Hpre) as [rest ->].
      rewrite explicitVersion_k8s_at. split; discriminate.
  - intros rest. rewrite match_k8s_at.
    destruct (k8sVersionRegex_test _); cbn [snd]; eauto.
  - intros rest. apply match_k8s_at.
  - intros text options Hmatch.
    assert (k8sFamily text = true /\ apiVersion options = selectedVersion text)
      as [Hfam Hversion].
    { revert Hmatch. unfold ImportKubernetesApi.match_, k8sFamily. cbn [source].
      destruct (String.eqb text "k8s"); destruct (String.prefix "k8s@" text);
        cbn [negb andb orb]; try discriminate;
        (destruct (k8sVersionRegex_test (selectedVersion text)); cbn;
         [| discriminate]); intros [= <-]; split; reflexivity. }
    split.
    + intros version Hexplicit. rewrite Hversion. unfold selectedVersion.
      now rewrite Hexplicit.
    + intros Hnone. split.
      * unfold k8sFamily in Hfam. apply orb_prop in Hfam as [Heq | Hpre].
        -- now apply String.eqb_eq in Heq.
        -- destruct (prefix_append _ _ Hpre) as [rest ->].
           rewrite explicitVersion_k8s_at in Hnone. discriminate Hnone.
      * rewrite Hversion. unfold selectedVersion. now rewrite Hnone.
Qed.

(** The source [k8s@latest] is not imported at the default version: it
    throws the format error for [latest]; and the source [k8s@1.22.0] is
    imported at the version [1.22.0]. *)
Lemma match_default_only_for_bare_source_witness :
  ImportKubernetesApi.match_ {| source := "k8s@latest" |} {| argvExclude := None |} =
  ([], inl (versionFormatError "latest")) /\
  (forall options,
      snd (ImportKubernetesApi.match_ {| source := "k8s@1.22.0" |}
                                      {| argvExclude := None |}) = inr (Some options) ->
      apiVersion options = "1.22.0") /\
  explicitVersion "k8s" = None.
Proof.
  pose proof (match_default_only_for_bare_source {| argvExclude := None |})
    as (_ & Hbare & _ & _ & _ & Hat & Hexplicit).
  split; [exact (Hat "latest") |]. split.
  - intros options Hmatch.
    exact (proj1 (Hexplicit "k8s@1.22.0" options Hmatch) "1.22.0" eq_refl).
  - apply (proj2 (Hbare "k8s" eq_refl)). reflexivity.
Defined.

(** ** The pipeline, from the rewrite on *)

(** A run whose download step and scan succeed, on an expected module name:
    it has made the calls of the download step and rewritten the key of
    every descriptor, and goes on with the engine that the rewrite leaves. *)
Lemma generateTypeScript_reaches_loops
      (download : string -> Outcome string)
      (safeParseJsonSchema : string -> Outcome JSON)
      (parseApiTypeName : string -> Outcome TypeName.t)
      (getTypeName : bool -> string -> string -> string)
      (getPropsTypeName : ApiObject.t -> string)
      (Emitted : Type) (nothing : Emitted)
      (generateConstruct :
         TypeGenerator.t Emitted -> ApiObject.t -> Outcome (TypeGenerator.t Emitted))
      (render : TypeGenerator.t Emitted -> Outcome string)
      (this : ImportKubernetesApiOptions) (moduleName : string)
      (options : GenerateOptions) (schema : JSON) (objs : list ApiObject.t) :
  let fetched := downloadSchema download safeParseJsonSchema (apiVersion this) in
  snd fetched = inr schema ->
  In moduleName moduleNames ->
  findApiObjectDefinitions parseApiTypeName schema (prefixOf options) = inr objs ->
  generateTypeScript download safeParseJsonSchema parseApiTypeName
                     getTypeName getPropsTypeName nothing
                     generateConstruct render this moduleName options =
  after (fst fetched ++ map (rewriteOf getPropsTypeName) objs)
        (finishRun generateConstruct render
           (rewritten getPropsTypeName
              (TypeGenerator.new (fieldOf (Some schema) "definitions") (exclude this)
                                 (renderTypeName parseApiTypeName getTypeName) nothing)
              objs)
           objs).
Proof.
  intros fetched Hfetched Hname Hscan.
  unfold generateTypeScript. fold fetched.
  destruct fetched as [io r]. cbn [fst snd] in *. subst r. trun.
  apply moduleNames_k8s in Hname. rewrite Hname. trun.
  rewrite Hscan. trun.
  rewrite (findApiObjectDefinitions_reads_definitions _ _ _ _ Hscan). trun.
  rewrite rewriteDefinitions_run. trun.
  unfold after, finishRun.
  destruct (emitConstructs generateConstruct _ objs) as [gen [e | generated]]; trun.
  - cbn [app]. now rewrite <- app_assoc.
  - destruct (render generated) as [e | text]; cbn [fst snd app];
      now rewrite <- !app_assoc.
Qed.

(** C3.  In a run of the pipeline whose download step and scan succeed,
    the pipeline calls [addDefinition] for every descriptor of the scan, and
    it goes on, whatever the construct generator and the renderer, with a
    graph in which the key of every descriptor holds, in place of the
    definition that the schema has under it, the object whose only field is
    a [$ref] to the properties type of the descriptor; the other keys of the
    graph are left as they are. *)
Theorem generateTypeScript_rewrites_keys
        (download : string -> Outcome string)
        (safeParseJsonSchema : string -> Outcome JSON)
        (parseApiTypeName : string -> Outcome TypeName.t)
        (getTypeName : bool -> string -> string -> string)
        (getPropsTypeName : ApiObject.t -> string)
        (Emitted : Type) (nothing : Emitted)
        (this : ImportKubernetesApiOptions) (moduleName : string)
        (options : GenerateOptions)
        (schema : JSON) (todo : list (string * JSON)) (objs : list ApiObject.t) :
  let fetched := downloadSchema download safeParseJsonSchema (apiVersion this) in
  let graph :=
    TypeGenerator.new (Some (JObj todo)) (exclude this)
                      (renderTypeName parseApiTypeName getTypeName) nothing in
  (forall typename type,
      parseApiTypeName typename = inr type -> TypeName.fullname type = typename) ->
  snd fetched = inr schema ->
  In moduleName moduleNames ->
  getProp (Some schema) "definitions" = inr (Some (JObj todo)) ->
  NoDup (map fst todo) ->
  findApiObjectDefinitions parseApiTypeName schema (prefixOf options) = inr objs ->
  exists graph' : TypeGenerator.t Emitted,
    (forall generateConstruct render,
        generateTypeScript download safeParseJsonSchema parseApiTypeName
                           getTypeName getPropsTypeName nothing
                           generateConstruct render this moduleName options =
        after (fst fetched ++
               map (fun o => AddDefinition
                               (ApiObject.fqn o)
                               (JObj [("$ref", JStr ("#/definitions/" +:+
                                                     getPropsTypeName o))]))
                   objs)
              (finishRun generateConstruct render graph' objs)) /\
    (forall o,
        In o objs ->
        TypeGenerator.definitions graph !! ApiObject.fqn o = Some (ApiObject.schema o) /\
        TypeGenerator.definitions graph' !! ApiObject.fqn o =
        Some (JObj [("$ref", JStr ("#/definitions/" +:+ getPropsTypeName o))])) /\
    (forall key,
        ~ In key (map ApiObject.fqn objs) ->
        TypeGenerator.definitions graph' !! key = TypeGenerator.definitions graph !! key).
Proof.
  intros fetched graph Hname Hfetched Hmodule Hdefs Hkeys Hscan.
  destruct (findApiObjectDefinitions_found
              _ _ _ _ _ Hname (definitionEntries_object _ _ Hdefs) Hkeys Hscan)
    as [Hnd Hall].
  exists (rewritten getPropsTypeName graph objs).
  split; [| split].
  - intros generateConstruct render.
    rewrite (generateTypeScript_reaches_loops
               download safeParseJsonSchema parseApiTypeName getTypeName
               getPropsTypeName Emitted nothing generateConstruct render
               this moduleName options schema objs Hfetched Hmodule Hscan).
    fold fetched. subst graph.
    assert (fieldOf (Some schema) "definitions" = Some (JObj todo)) as ->.
    { destruct schema; cbn in Hdefs |- *; congruence. }
    reflexivity.
  - intros o Ho. split.
    + rewrite Forall_forall in Hall.
      destruct (Hall o (proj2 (list_elem_of_In _ _) Ho)) as [Hin _].
      subst graph. cbn [TypeGenerator.new TypeGenerator.definitions].
      apply elem_of_list_to_map_1; [exact Hkeys |].
      apply list_elem_of_In. exact Hin.
    + exact (rewritten_lookup _ _ _ _ _ Hnd Ho).
  - intros key Hout. now apply rewritten_other.
Qed.

(** A run on the graph of two kinds, with a construct generator that looks
    into the engine and throws unless the key of the descriptor holds the
    reference to its properties type: the run ends without an error. *)
Lemma generateTypeScript_rewrites_keys_witness :
  generateTypeScript (fun _ => inr "{}") (fun _ => inr pairSchema)
                     parseApiTypeName_spec (fun _ kind version => kind +:+ version)
                     getPropsTypeName_spec tt
                     (probeConstruct getPropsTypeName_spec) idleRender
                     {| apiVersion := "1.25.0"; exclude := None |}
                     "k8s" {| classNamePrefix := None |} =
  ([Download (schemaUrl "1.25.0"); SafeParseJsonSchema "{}";
    AddDefinition "grp/v1.Widget" (JObj [("$ref", JStr "#/definitions/KubeWidgetProps")]);
    AddDefinition "grp/v1.Gadget" (JObj [("$ref", JStr "#/definitions/KubeGadgetProps")]);
    GenerateConstruct pairWidget; GenerateConstruct pairGadget;
    EmitHeader false; Render; CodeLine "// generated"],
   inr tt).
Proof.
  assert (NoDup (map fst [("grp/v1.Widget", widgetNode);
                          ("grp/v1.Gadget", gadgetNode)])) as Hkeys
    by (apply (bool_decide_unpack _); vm_compute; exact I).
  destruct (generateTypeScript_rewrites_keys
              (fun _ => inr "{}") (fun _ => inr pairSchema)
              parseApiTypeName_spec (fun _ kind version => kind +:+ version)
              getPropsTypeName_spec unit tt
              {| apiVersion := "1.25.0"; exclude := None |}
              "k8s" {| classNamePrefix := None |} pairSchema
              [("grp/v1.Widget", widgetNode); ("grp/v1.Gadget", gadgetNode)]
              [pairWidget; pairGadget]
              parseApiTypeName_spec_fullname eq_refl (or_introl eq_refl)
              eq_refl Hkeys eq_refl)
    as (graph' & Hrun & Hrewritten & _).
  rewrite (Hrun (probeConstruct getPropsTypeName_spec) idleRender).
  destruct (Hrewritten pairWidget (or_introl eq_refl)) as [_ Hwidget].
  destruct (Hrewritten pairGadget (or_intror (or_introl eq_refl))) as [_ Hgadget].
  assert (probeConstruct getPropsTypeName_spec graph' pairWidget = inr graph')
    as Hprobe1 by (unfold probeConstruct; rewrite Hwidget; reflexivity).
  assert (probeConstruct getPropsTypeName_spec graph' pairGadget = inr graph')
    as Hprobe2 by (unfold probeConstruct; rewrite Hgadget; reflexivity).
  unfold after, finishRun, emitConstructs. cbn [forEach]. trun.
  rewrite Hprobe1. trun. rewrite Hprobe2. reflexivity.
Defined.

(** ** The name-rendering function *)



(** ** What a run writes *)

(** X16.  The rendered text is written, by [code.line], only in a run in
    which the download step, the scan, every construct and the rendering
    have succeeded: the run has then rewritten the key and generated the
    construct of every descriptor, and emitted the header, before it writes.
    The header is emitted earlier, once every construct has been generated
    and before the rendering: a run whose rendering throws has emitted the
    header and writes no text. *)
Theorem generateTypeScript_writes_on_success
        (download : string -> Outcome string)
        (safeParseJsonSchema : string -> Outcome JSON)
        (parseApiTypeName : string -> Outcome TypeName.t)
        (getTypeName : bool -> string -> string -> string)
        (getPropsTypeName : ApiObject.t -> string)
        (Emitted : Type) (nothing : Emitted)
        (generateConstruct :
           TypeGenerator.t Emitted -> ApiObject.t -> Outcome (TypeGenerator.t Emitted))
        (render : TypeGenerator.t Emitted -> Outcome string)
        (this : ImportKubernetesApiOptions) (moduleName : string)
        (options : GenerateOptions) :
  let fetched := downloadSchema download safeParseJsonSchema (apiVersion this) in
  let run := generateTypeScript download safeParseJsonSchema parseApiTypeName
                                getTypeName getPropsTypeName nothing
                                generateConstruct render this moduleName options in
  (forall text,
      In (CodeLine text) (fst run) ->
      snd run = inr tt /\
      exists schema objs generated,
        snd fetched = inr schema /\
        findApiObjectDefinitions parseApiTypeName schema (prefixOf options) = inr objs /\
        render generated = inr text /\
        fst run =
        fst fetched ++ map (rewriteOf getPropsTypeName) objs ++
        map GenerateConstruct objs ++ [EmitHeader false; Render; CodeLine text]) /\
  (forall custom,
      In (EmitHeader custom) (fst run) ->
      custom = false /\
      exists schema objs generated,
        snd fetched = inr schema /\
        findApiObjectDefinitions parseApiTypeName schema (prefixOf options) = inr objs /\
        ((exists e,
             render generated = inl e /\
             run = (fst fetched ++ map (rewriteOf getPropsTypeName) objs ++
                    map GenerateConstruct objs ++ [EmitHeader false; Render],
                    inl e)) \/
         (exists text,
             render generated = inr text /\
             run = (fst fetched ++ map (rewriteOf getPropsTypeName) objs ++
                    map GenerateConstruct objs ++
                    [EmitHeader false; Render; CodeLine text],
                    inr tt)))).
Proof.
  intros fetched run.
  assert (forall ev,
             isDownloadStep ev = false -> isAddDefinition ev = false ->
             isGenerateConstruct ev = false ->
             In ev (fst run) ->
             exists schema objs generated,
               snd fetched = inr schema /\
               findApiObjectDefinitions parseApiTypeName schema (prefixOf options)
               = inr objs /\
               ((exists e,
                    render generated = inl e /\
                    run = (fst fetched ++ map (rewriteOf getPropsTypeName) objs ++
                           map GenerateConstruct objs ++ [EmitHeader false; Render],
                           inl e)) \/
                (exists text,
                    render generated = inr text /\
                    run = (fst fetched ++ map (rewriteOf getPropsTypeName) objs ++
                           map GenerateConstruct objs ++
                           [EmitHeader false; Render; CodeLine text],
                           inr tt)))) as Hlate.
  { intros ev Hstep Hadd Hgen. subst run. unfold generateTypeScript. fold fetched.
    pose proof (downloadSchema_steps download safeParseJsonSchema (apiVersion this))
      as Hio.
    fold fetched in Hio. destruct fetched as [io [e | schema]]; cbn [fst snd] in *; trun.
    all: assert (~ In ev io) as Hnot
        by (intros Hin; rewrite Forall_forall in Hio;
            pose proof (Hio _ (proj2 (list_elem_of_In _ _) Hin)) as Hev;
            congruence).
    { intros Hin. contradiction. }
    destruct (negb (String.eqb moduleName "k8s")); trun.
    { rewrite app_nil_r. intros Hin. contradiction. }
    destruct (findApiObjectDefinitions parseApiTypeName schema (prefixOf options))
      as [e | objs] eqn:Hscan; trun.
    { rewrite app_nil_r. intros Hin. contradiction. }
    destruct (getProp (Some schema) "definitions") as [e | definitions]; trun.
    { rewrite !app_nil_r. intros Hin. contradiction. }
    rewrite rewriteDefinitions_run. trun.
    set (graph := rewritten getPropsTypeName _ objs).
    pose proof (emitConstructs_trace _ generateConstruct graph objs) as Hgens.
    pose proof (fun g' => emitConstructs_all _ generateConstruct graph g' objs) as Hall.
    destruct (emitConstructs generateConstruct graph objs) as [gen r].
    cbn [fst snd] in *.
    assert (~ In ev (map (rewriteOf getPropsTypeName) objs)) as Hadds
        by (intros Hin; apply in_map_iff in Hin as (o & <- & _); discriminate Hadd).
    assert (~ In ev gen) as Hnogen
        by (intros Hin; rewrite Forall_forall in Hgens;
            destruct (Hgens _ (proj2 (list_elem_of_In _ _) Hin)) as (o & -> & _);
            discriminate Hgen).
    destruct r as [e | generated]; cbn [mbind traced_bind fst snd app].
    { intros Hin. exfalso.
      repeat (apply in_app_or in Hin as [Hin | Hin]; [contradiction |]).
      contradiction. }
    intros _. exists schema, objs, generated.
    split; [reflexivity |]. split; [exact Hscan |].
    rewrite (Hall generated eq_refl).
    destruct (render generated) as [e | text]; cbn [fst snd app].
    - left. exists e. split; reflexivity.
    - right. exists text. split; reflexivity. }
  split.
  - intros text Hin.
    destruct (Hlate (CodeLine text) eq_refl eq_refl eq_refl Hin)
      as (schema & objs & generated & Hfetched & Hscan & [(e & _ & Hrun) | (written & Hrender & Hrun)]).
    + exfalso. rewrite Hrun in Hin. cbn [fst] in Hin.
      pose proof (downloadSchema_steps download safeParseJsonSchema (apiVersion this))
        as Hio. fold fetched in Hio. rewrite Forall_forall in Hio.
      repeat (apply in_app_or in Hin as [Hin | Hin]).
      * pose proof (Hio _ (proj2 (list_elem_of_In _ _) Hin)) as Hev. discriminate Hev.
      * apply in_map_iff in Hin as (o & Ho & _). discriminate Ho.
      * apply in_map_iff in Hin as (o & Ho & _). discriminate Ho.
      * destruct Hin as [Hin | [Hin | []]]; discriminate Hin.
    + assert (written = text) as ->.
      { rewrite Hrun in Hin. cbn [fst] in Hin.
        pose proof (downloadSchema_steps download safeParseJsonSchema (apiVersion this))
          as Hio. fold fetched in Hio. rewrite Forall_forall in Hio.
        repeat (apply in_app_or in Hin as [Hin | Hin]).
        * pose proof (Hio _ (proj2 (list_elem_of_In _ _) Hin)) as Hev. discriminate Hev.
        * apply in_map_iff in Hin as (o & Ho & _). discriminate Ho.
        * apply in_map_iff in Hin as (o & Ho & _). discriminate Ho.
        * destruct Hin as [Hin | [Hin | [Hin | []]]]; try discriminate Hin.
          now injection Hin. }
      rewrite Hrun. split; [reflexivity |].
      exists schema, objs, generated. repeat split; assumption.
  - intros custom Hin.
    destruct (Hlate (EmitHeader custom) eq_refl eq_refl eq_refl Hin)
      as (schema & objs & generated & Hfetched & Hscan & Hcases).
    split.
    + pose proof (downloadSchema_steps download safeParseJsonSchema (apiVersion this))
        as Hio. fold fetched in Hio. rewrite Forall_forall in Hio.
      destruct Hcases as [(e & _ & Hrun) | (text & _ & Hrun)];
        rewrite Hrun in Hin; cbn [fst] in Hin;
        repeat (apply in_app_or in Hin as [Hin | Hin]).
      all: try (pose proof (Hio _ (proj2 (list_elem_of_In _ _) Hin)) as Hev;
                discriminate Hev).
      all: try (apply in_map_iff in Hin as (o & Ho & _); discriminate Ho).
      * destruct Hin as [Hin | [Hin | []]]; try discriminate Hin. now injection Hin.
      * destruct Hin as [Hin | [Hin | [Hin | []]]]; try discriminate Hin.
        now injection Hin.
    + exists schema, objs, generated. repeat split; assumption.
Qed.

(** A run that writes its text ends without an error; a run whose rendering
    fails has emitted the header, throws, and writes no text. *)
Lemma generateTypeScript_writes_on_success_witness :
  snd (sampleRun pairSchema) = inr tt /\
  In (EmitHeader false) (fst (unrenderedRun pairSchema)) /\
  snd (unrenderedRun pairSchema) = inl (newError "cannot render") /\
  forall text, ~ In (CodeLine text) (fst (unrenderedRun pairSchema)).
Proof.
  split; [| split; [| split]].
  - unfold sampleRun.
    apply (proj1 (generateTypeScript_writes_on_success
                    (fun _ => inr "{}") (fun _ => inr pairSchema)
                    parseApiTypeName_spec (fun _ kind version => kind +:+ version)
                    getPropsTypeName_spec unit tt idleConstruct idleRender
                    {| apiVersion := "1.25.0"; exclude := None |}
                    "k8s" {| classNamePrefix := None |}) "// generated").
    vm_compute. do 8 right. left. reflexivity.
  - vm_compute. do 6 right. left. reflexivity.
  - vm_compute. reflexivity.
  - intros text Hin. unfold unrenderedRun in Hin.
    apply (proj1 (generateTypeScript_writes_on_success
                    (fun _ => inr "{}") (fun _ => inr pairSchema)
                    parseApiTypeName_spec (fun _ kind version => kind +:+ version)
                    getPropsTypeName_spec unit tt idleConstruct failingRender
                    {| apiVersion := "1.25.0"; exclude := None |}
                    "k8s" {| classNamePrefix := None |}) text) in Hin
      as [Hdone _].
    vm_compute in Hdone. discriminate Hdone.
Defined.

(** ** Derived names *)




